(** * timm/models/vgg.py: the VGG configuration, head adapter and checkpoint filter

    A shallow embedding of [src/timm/models/vgg.py].  Tensors are seen
    through their shape and the identity of their elements; modules are
    descriptors of the constructor calls that built them.  Python
    exceptions are explicit results. *)

From Stdlib Require Import ZArith QArith List String Ascii Bool Lia.
From Stdlib Require Import Numbers.DecimalString.
From Stdlib Require Import Floats.SpecFloat.
Import ListNotations.

Open Scope string_scope.
Open Scope list_scope.
Open Scope Z_scope.

(** ** Python strings: [in], [str.replace] and integer formatting *)

Module PyStr.

(** [s.startswith(p)]: [p] occurs at the start of [s]. *)
Fixpoint startswith (p s : string) : bool :=
  match p with
  | EmptyString => true
  | String a p' =>
      match s with
      | EmptyString => false
      | String b s' => Ascii.eqb a b && startswith p' s'
      end
  end.

(** [sub in s] for Python strings: [sub] occurs at some position of [s]. *)
Fixpoint contains (sub s : string) : bool :=
  startswith sub s
  || match s with
     | EmptyString => false
     | String _ s' => contains sub s'
     end.

(** The scan of [str.replace] for a non-empty [old]: left to right, an
    occurrence of [old] is replaced by [new] and the scan resumes after it;
    [skip] counts the characters of the occurrence still to be dropped. *)
Fixpoint replace_from (old new : string) (skip : nat) (s : string) : string :=
  match s with
  | EmptyString => EmptyString
  | String c s' =>
      match skip with
      | S n => replace_from old new n s'
      | O =>
          if startswith old s
          then (new ++ replace_from old new (Nat.pred (String.length old)) s')%string
          else String c (replace_from old new O s')
      end
  end.

(** With an empty [old], Python puts [new] before every character and at
    the end. *)
Fixpoint intersperse (new s : string) : string :=
  match s with
  | EmptyString => new
  | String c s' => (new ++ String c (intersperse new s'))%string
  end.

(** [s.replace(old, new)] *)
Definition replace (old new s : string) : string :=
  match old with
  | EmptyString => intersperse new s
  | String _ _ => replace_from old new O s
  end.

(** [f'{n}'] for an integer [n]. *)
Definition format_int (n : Z) : string :=
  NilZero.string_of_int (Z.to_int n).

(** Number of occurrences of the character [a] in [s]. *)
Fixpoint count (a : ascii) (s : string) : nat :=
  match s with
  | EmptyString => O
  | String c s' => (if Ascii.eqb a c then 1 else 0) + count a s'
  end.

End PyStr.

(** ** Python dictionaries with string keys

    A [dict] keeps its entries in insertion order; assigning to a key that
    is present replaces the value in place. *)

Module PyDict.

Section Dict.
Context {V : Type}.

Definition dict := list (string * V).

Definition keys (d : dict) : list string := map fst d.

(** [d.get(k)] *)
Fixpoint lookup (k : string) (d : dict) : option V :=
  match d with
  | [] => None
  | (k', v) :: d' => if String.eqb k k' then Some v else lookup k d'
  end.

(** [d[k] = v] *)
Fixpoint set (k : string) (v : V) (d : dict) : dict :=
  match d with
  | [] => [(k, v)]
  | (k', v') :: d' =>
      if String.eqb k k' then (k', v) :: d' else (k', v') :: set k v d'
  end.

(** What a [dict] object guarantees: no key occurs twice. *)
Definition wf (d : dict) : Prop := NoDup (keys d).
End Dict.

Arguments dict V : clear implicits.

End PyDict.

(** ** Tensors *)

(** A tensor, as far as this module looks at it: its shape and its
    elements.  The elements, read in row-major order, are named by an
    identifier: two tensors with the same identifier hold the same values in
    the same order, whether or not they share memory. *)
Record Tensor : Type := mkTensor {
  shape : list Z;
  elements : N
}.

Definition numel (t : Tensor) : Z := fold_right Z.mul 1 (shape t).

(** [t.reshape(-1, d1, ..., dn)]: the leading dimension is inferred.  It
    raises when the number of elements is not a multiple of [d1 * ... * dn],
    and when that product is zero.  The result, a view or a copy, holds the
    elements of [t] in the same order. *)
Definition reshape_infer (dims : list Z) (t : Tensor) : option Tensor :=
  let p := fold_right Z.mul 1 dims in
  if (p =? 0) || negb (numel t mod p =? 0) then None
  else Some (mkTensor (numel t / p :: dims) (elements t)).

(** ** [_filter_fn]: the checkpoint filter *)

Definition StateDict := PyDict.dict Tensor.

(** The three [replace] calls on the key. *)
Definition rename_key (k : string) : string :=
  let k_r := k in
  let k_r := PyStr.replace "classifier.0" "pre_logits.fc1" k_r in
  let k_r := PyStr.replace "classifier.3" "pre_logits.fc2" k_r in
  let k_r := PyStr.replace "classifier.6" "head.fc" k_r in
  k_r.

(** The two conditional [reshape] calls on the value; both tests look at
    the original key [k]. *)
Definition remap_value (k : string) (v : Tensor) : option Tensor :=
  match
    (if PyStr.contains "classifier.0.weight" k
     then reshape_infer [512; 7; 7] v else Some v)
  with
  | None => None
  | Some v =>
      if PyStr.contains "classifier.3.weight" k
      then reshape_infer [4096; 1; 1] v else Some v
  end.

(** The loop over [state_dict.items()], with [out_dict] as accumulator;
    [None] when a [reshape] raises. *)
Fixpoint filter_loop (items : StateDict) (out_dict : StateDict)
  : option StateDict :=
  match items with
  | [] => Some out_dict
  | (k, v) :: rest =>
      match remap_value k v with
      | None => None
      | Some v' => filter_loop rest (PyDict.set (rename_key k) v' out_dict)
      end
  end.

Definition _filter_fn (state_dict : StateDict) : option StateDict :=
  filter_loop state_dict [].

(** A key has a legacy name in it when one of the three replaced substrings
    occurs in it. *)
Definition has_legacy (k : string) : bool :=
  PyStr.contains "classifier.0" k
  || PyStr.contains "classifier.3" k
  || PyStr.contains "classifier.6" k.

(** The reading of the legacy names as prefixes of the key. *)
Definition starts_with_legacy (k : string) : bool :=
  PyStr.startswith "classifier.0" k
  || PyStr.startswith "classifier.3" k
  || PyStr.startswith "classifier.6" k.

(** No other entry of [d] is renamed onto the renamed key of [k]. *)
Definition no_clash (k : string) (d : StateDict) : Prop :=
  forall k' v', In (k', v') d -> rename_key k' = rename_key k -> k' = k.

(** Neither [reshape] on the entry raises: the element count is a multiple
    of what the fixed trailing dimensions hold. *)
Definition reshape_ok (k : string) (v : Tensor) : Prop :=
  (PyStr.contains "classifier.0.weight" k = true -> numel v mod 25088 = 0)
  /\ (PyStr.contains "classifier.3.weight" k = true -> numel v mod 4096 = 0).

(** The head of a torchvision VGG checkpoint, with its first convolution:
    the legacy layout the filter is written for. *)
Definition legacy_checkpoint : StateDict :=
  [ ("features.0.weight", mkTensor [64; 3; 3; 3] 1%N);
    ("features.0.bias", mkTensor [64] 2%N);
    ("classifier.0.weight", mkTensor [4096; 25088] 3%N);
    ("classifier.0.bias", mkTensor [4096] 4%N);
    ("classifier.3.weight", mkTensor [4096; 4096] 5%N);
    ("classifier.3.bias", mkTensor [4096] 6%N);
    ("classifier.6.weight", mkTensor [1000; 4096] 7%N);
    ("classifier.6.bias", mkTensor [1000] 8%N) ].

(** ** Python numbers: [int * float], [int(x)] and [round(x)] *)

Inductive Exn : Type :=
| AssertionError
| ValueError
| OverflowError
| RuntimeError.

Inductive Result (A : Type) : Type :=
| Ok (a : A)
| Raise (e : Exn).
Arguments Ok {A} a.
Arguments Raise {A} e.

(** Running [k] on the value of [r], unless [r] raised. *)
Definition bind {A B : Type} (r : Result A) (k : A -> Result B) : Result B :=
  match r with
  | Ok a => k a
  | Raise e => Raise e
  end.

Notation "x <- r ;; k" := (bind r (fun x => k))
  (at level 61, r at next level, right associativity).

Module PyNum.

(** A Python [float] is an IEEE 754 binary64 value. *)
Definition float := spec_float.
Definition prec : Z := 53.
Definition emax : Z := 1024.

(** The value [m * 2^e], rounded to nearest-even. *)
Definition dyadic (m e : Z) : float := binary_normalize prec emax m e false.

(** [float(n)] for an integer [n]; an integer beyond the range of the
    format does not convert. *)
Definition float_of_int (n : Z) : Result float :=
  match dyadic n 0 with
  | S754_infinity _ => Raise OverflowError
  | x => Ok x
  end.

(** [n * x] for an integer [n] and a float [x]: [n] is converted first. *)
Definition mul_int_float (n : Z) (x : float) : Result float :=
  match float_of_int n with
  | Raise e => Raise e
  | Ok fn => Ok (SFmul prec emax fn x)
  end.

(** The magnitude [m * 2^e] cut to an integer. *)
Definition trunc_mag (m : positive) (e : Z) : Z :=
  if 0 <=? e then Z.shiftl (Zpos m) e else Z.shiftr (Zpos m) (- e).

(** [int(x)]: the fractional part is discarded, towards zero. *)
Definition int_of_float (x : float) : Result Z :=
  match x with
  | S754_zero _ => Ok 0
  | S754_finite s m e => Ok (cond_Zopp s (trunc_mag m e))
  | S754_infinity _ => Raise OverflowError
  | S754_nan => Raise ValueError
  end.

(** The magnitude [m * 2^e] rounded to the nearest integer, a tie going to
    the even one. *)
Definition round_mag (m : positive) (e : Z) : Z :=
  if 0 <=? e then Z.shiftl (Zpos m) e
  else
    let q := Z.shiftr (Zpos m) (- e) in
    let r := Z.land (Zpos m) (Z.ones (- e)) in
    let half := Z.shiftl 1 (- e - 1) in
    match r ?= half with
    | Lt => q
    | Gt => q + 1
    | Eq => if Z.even q then q else q + 1
    end.

(** [round(x)] *)
Definition round_of_float (x : float) : Result Z :=
  match x with
  | S754_zero _ => Ok 0
  | S754_finite s m e => Ok (cond_Zopp s (round_mag m e))
  | S754_infinity _ => Raise OverflowError
  | S754_nan => Raise ValueError
  end.

(** The rational a float stands for; 0 for what is not a finite number. *)
Definition value (x : float) : Q :=
  match x with
  | S754_finite s m e =>
      match e with
      | Z0 => inject_Z (cond_Zopp s (Zpos m))
      | Zpos p => inject_Z (cond_Zopp s (Zpos m) * 2 ^ Zpos p)
      | Zneg p => Qmake (cond_Zopp s (Zpos m)) (2 ^ p)
      end
  | _ => inject_Z 0
  end.

Definition is_finite (x : float) : bool :=
  match x with
  | S754_zero _ | S754_finite _ _ _ => true
  | _ => false
  end.

End PyNum.

(** ** Module descriptors *)

(** A convolution that has been built, with the arguments it was built
    from; stride 1 throughout this file. *)
Record Conv2d : Type := mkConv2d {
  in_channels : Z;
  out_channels : Z;
  kernel_size : Z;
  padding : Z;
  bias : bool
}.

(** The layers of the feature stack.  [act_layer] and [norm_layer] are
    classes handed to the constructor; they appear by name. *)
Inductive Layer : Type :=
| Conv (c : Conv2d)
| Norm (cls : string) (num_features : Z)
| Act (cls : string) (inplace : bool)
| MaxPool2d (kernel_size stride : Z).

(** One entry of [feature_info]. *)
Record FeatureInfo : Type := mkFeatureInfo {
  num_chs : Z;
  reduction : Z;
  module : string
}.

(** An element of a configuration list: a channel width or ['M']. *)
Inductive LayerSpec : Type :=
| M
| Ch (v : Z).

Definition cfgs : list (string * list LayerSpec) :=
  [ ("vgg11", [Ch 64; M; Ch 128; M; Ch 256; Ch 256; M; Ch 512; Ch 512; M;
               Ch 512; Ch 512; M]);
    ("vgg13", [Ch 64; Ch 64; M; Ch 128; Ch 128; M; Ch 256; Ch 256; M;
               Ch 512; Ch 512; M; Ch 512; Ch 512; M]);
    ("vgg16", [Ch 64; Ch 64; M; Ch 128; Ch 128; M; Ch 256; Ch 256; Ch 256; M;
               Ch 512; Ch 512; Ch 512; M; Ch 512; Ch 512; Ch 512; M]);
    ("vgg19", [Ch 64; Ch 64; M; Ch 128; Ch 128; M;
               Ch 256; Ch 256; Ch 256; Ch 256; M;
               Ch 512; Ch 512; Ch 512; Ch 512; M;
               Ch 512; Ch 512; Ch 512; Ch 512; M]) ].

(** [cfgs[name]] *)
Fixpoint cfgs_get (name : string) (table : list (string * list LayerSpec))
  : option (list LayerSpec) :=
  match table with
  | [] => None
  | (n, c) :: table' => if String.eqb name n then Some c else cfgs_get name table'
  end.

(** ** [ConvMlp] *)

Record ConvMlp : Type := mkConvMlp {
  input_kernel_size : Z;
  fc1 : Conv2d;
  act1 : Layer;
  drop : PyNum.float;
  fc2 : Conv2d;
  act2 : Layer
}.

(** [mid_features = int(out_features * mlp_ratio)] *)
Definition mid_features (out_features : Z) (mlp_ratio : PyNum.float) : Result Z :=
  match PyNum.mul_int_float out_features mlp_ratio with
  | Raise e => Raise e
  | Ok x => PyNum.int_of_float x
  end.

(** The hidden width in the words of the specification:
    [round(out_features * mlp_ratio)]. *)
Definition mid_features_spec (out_features : Z) (mlp_ratio : PyNum.float)
  : Result Z :=
  match PyNum.mul_int_float out_features mlp_ratio with
  | Raise e => Raise e
  | Ok x => PyNum.round_of_float x
  end.

(** [nn.Conv2d(in_channels, out_channels, kernel_size, padding=...,
    bias=...)]: allocating the weight raises on a negative size; a size of
    zero is accepted. *)
Definition Conv2d_init (cin cout k pad : Z) (b : bool) : Result Conv2d :=
  if (cin <? 0) || (cout <? 0) || (k <? 0) then Raise RuntimeError
  else Ok (mkConv2d cin cout k pad b).

(** [nn.Dropout(p)]: it raises when [p < 0 or p > 1]. *)
Definition Dropout_init (p : PyNum.float) : Result PyNum.float :=
  if SFltb p (S754_zero false) || SFltb (PyNum.dyadic 1 0) p
  then Raise ValueError
  else Ok p.

(** [ConvMlp.__init__], with [conv_layer] at its default [nn.Conv2d]: the
    statements in order, the first exception ending the construction. *)
Definition ConvMlp_init (in_features out_features kernel_size : Z)
    (mlp_ratio drop_rate : PyNum.float) (act_layer : string) : Result ConvMlp :=
  mid <- mid_features out_features mlp_ratio ;;
  fc1 <- Conv2d_init in_features mid kernel_size 0 true ;;
  drop <- Dropout_init drop_rate ;;
  fc2 <- Conv2d_init mid out_features 1 0 true ;;
  Ok {| input_kernel_size := kernel_size;
        fc1 := fc1;
        act1 := Act act_layer true;
        drop := drop;
        fc2 := fc2;
        act2 := Act act_layer true |}.

(** *** Shapes through [ConvMlp.forward] *)

(** What a convolution needs of the channel count and the spatial size of
    its input: the channel count is its [in_channels]; neither that nor its
    [out_channels] is empty; the kernel is not empty and fits the padded
    input. *)
Definition conv2d_accepts (c : Conv2d) (ch h w : Z) : bool :=
  (ch =? in_channels c) && (0 <? in_channels c) && (0 <? out_channels c)
  && (0 <? kernel_size c)
  && (kernel_size c <=? h + 2 * padding c)
  && (kernel_size c <=? w + 2 * padding c).

(** The shape a convolution returns on an input [n, c, h, w] or [c, h, w];
    it raises on another rank and on an input it does not accept. *)
Definition conv2d_shape (c : Conv2d) (x : list Z) : option (list Z) :=
  match x with
  | [n; ch; h; w] =>
      let hp := h + 2 * padding c in
      let wp := w + 2 * padding c in
      if conv2d_accepts c ch h w
      then Some [n; out_channels c; hp - kernel_size c + 1; wp - kernel_size c + 1]
      else None
  | [ch; h; w] =>
      let hp := h + 2 * padding c in
      let wp := w + 2 * padding c in
      if conv2d_accepts c ch h w
      then Some [out_channels c; hp - kernel_size c + 1; wp - kernel_size c + 1]
      else None
  | _ => None
  end.

(** The shape [F.adaptive_avg_pool2d(x, (oh, ow))] returns; it raises on an
    input with an empty channel or spatial dimension. *)
Definition adaptive_avg_pool2d_shape (x : list Z) (output_size : Z * Z)
  : option (list Z) :=
  match x with
  | [n; ch; h; w] =>
      if (0 <? ch) && (0 <? h) && (0 <? w)
      then Some [n; ch; fst output_size; snd output_size]
      else None
  | [ch; h; w] =>
      if (0 <? ch) && (0 <? h) && (0 <? w)
      then Some [ch; fst output_size; snd output_size]
      else None
  | _ => None
  end.

(** [x.shape[-2]] and [x.shape[-1]] *)
Definition shape_m2 (x : list Z) : option Z := nth_error (rev x) 1.
Definition shape_m1 (x : list Z) : option Z := nth_error (rev x) 0.

(** The input of [fc1]: [x] after the conditional pooling. *)
Definition ConvMlp_pre_pool (m : ConvMlp) (x : list Z) : option (list Z) :=
  match shape_m2 x, shape_m1 x with
  | Some h, Some w =>
      if (h <? input_kernel_size m) || (w <? input_kernel_size m)
      then
        let output_size :=
          (Z.max (input_kernel_size m) h, Z.max (input_kernel_size m) w) in
        adaptive_avg_pool2d_shape x output_size
      else Some x
  | _, _ => None
  end.

(** [ConvMlp.forward] on shapes; the activations and the dropout keep the
    shape. *)
Definition ConvMlp_forward (m : ConvMlp) (x : list Z) : option (list Z) :=
  match ConvMlp_pre_pool m x with
  | None => None
  | Some x =>
      match conv2d_shape (fc1 m) x with
      | None => None
      | Some x => conv2d_shape (fc2 m) x
      end
  end.

(** ** [ClassifierHead] *)

(** The final layer of the head: a linear projection, or the identity. *)
Inductive HeadFc : Type :=
| Linear (in_features out_features : Z)
| Identity.

Record ClassifierHead : Type := mkClassifierHead {
  head_in_features : Z;
  pool_type : string;
  head_drop_rate : PyNum.float;
  head_fc : HeadFc
}.

(** Modelled from the spec: [timm.layers.ClassifierHead], whose source is
    not part of [vgg.py].  The head pools with the configured pooling kind,
    applies dropout and a final linear projection to [num_classes]; with
    [num_classes <= 0] the linear layer is an identity. *)
Definition ClassifierHead_fc (in_features num_classes : Z) : HeadFc :=
  if num_classes <=? 0 then Identity else Linear in_features num_classes.

Definition ClassifierHead_init (in_features num_classes : Z)
    (pool_type : string) (drop_rate : PyNum.float) : ClassifierHead :=
  {| head_in_features := in_features;
     pool_type := pool_type;
     head_drop_rate := drop_rate;
     head_fc := ClassifierHead_fc in_features num_classes |}.

(** Modelled from the spec: [ClassifierHead.reset(num_classes, pool_type)]
    replaces the final linear layer and, when a pooling kind is given, the
    pooling strategy; it raises nothing.  The result is the head after the
    call and the exception raised, if any. *)
Definition ClassifierHead_reset (h : ClassifierHead) (num_classes : Z)
    (pool : option string) : ClassifierHead * option Exn :=
  ({| head_in_features := head_in_features h;
      pool_type := match pool with Some p => p | None => pool_type h end;
      head_drop_rate := head_drop_rate h;
      head_fc := ClassifierHead_fc (head_in_features h) num_classes |},
   None).

(** ** [VGG] *)

Record VGG : Type := mkVGG {
  num_classes : Z;
  drop_rate : PyNum.float;
  grad_checkpointing : bool;
  use_norm : bool;
  feature_info : list FeatureInfo;
  features : list Layer;
  num_features : Z;
  head_hidden_size : Z;
  pre_logits : ConvMlp;
  head : ClassifierHead
}.

(** The variables the loop of [VGG.__init__] updates. *)
Record BuildState : Type := mkBuildState {
  prev_chs : Z;
  net_stride : Z;
  layers : list Layer;
  st_feature_info : list FeatureInfo
}.

(** What construction leaves behind: the model, or the exception raised
    together with the layers built before it. *)
Inductive InitResult : Type :=
| Built (m : VGG)
| Failed (e : Exn) (built : list Layer).

Section Builder.
Variable act_layer : string.
Variable norm_layer : option string.

(** One iteration of [for v in cfg]. *)
Definition build_step (st : BuildState) (v : LayerSpec) : BuildState :=
  let last_idx := Z.of_nat (List.length (layers st)) - 1 in
  match v with
  | M =>
      {| prev_chs := prev_chs st;
         net_stride := net_stride st * 2;
         layers := layers st ++ [MaxPool2d 2 2];
         st_feature_info :=
           st_feature_info st ++
           [mkFeatureInfo (prev_chs st) (net_stride st)
              ("features." ++ PyStr.format_int last_idx)%string] |}
  | Ch v =>
      let conv2d := Conv (mkConv2d (prev_chs st) v 3 1 true) in
      {| prev_chs := v;
         net_stride := net_stride st;
         layers :=
           match norm_layer with
           | Some norm => layers st ++ [conv2d; Norm norm v; Act act_layer true]
           | None => layers st ++ [conv2d; Act act_layer true]
           end;
         st_feature_info := st_feature_info st |}
  end.

Definition build_loop (cfg : list LayerSpec) (st : BuildState) : BuildState :=
  fold_left build_step cfg st.

(** The state before the loop. *)
Definition build_start (in_chans : Z) : BuildState :=
  {| prev_chs := in_chans; net_stride := 1; layers := [];
     st_feature_info := [] |}.

(** The entry appended after the loop. *)
Definition final_info (st : BuildState) : FeatureInfo :=
  mkFeatureInfo (prev_chs st) (net_stride st)
    ("features." ++
     PyStr.format_int (Z.of_nat (List.length (layers st)) - 1))%string.

(** What the constructors of one iteration raise, if anything: with
    [conv_layer] at its default, [conv_layer(prev_chs, v, ...)] raises on a
    negative width; [norm_layer(v)] comes after it, and the other
    constructors take no width. *)
Definition build_step_raises (st : BuildState) (v : LayerSpec) : option Exn :=
  match v with
  | M => None
  | Ch v =>
      match Conv2d_init (prev_chs st) v 3 1 true with
      | Raise e => Some e
      | Ok _ => None
      end
  end.

(** The loop as it runs: it stops in the iteration whose constructor
    raises, with the state of the iterations before it. *)
Fixpoint build_run (cfg : list LayerSpec) (st : BuildState)
  : BuildState * option Exn :=
  match cfg with
  | [] => (st, None)
  | v :: cfg' =>
      match build_step_raises st v with
      | Some e => (st, Some e)
      | None => build_run cfg' (build_step st v)
      end
  end.

(** [VGG.__init__] *)
Definition VGG_init (cfg : list LayerSpec) (num_classes in_chans
    output_stride : Z) (mlp_ratio : PyNum.float) (global_pool : string)
    (drop_rate : PyNum.float) : InitResult :=
  if negb (output_stride =? 32) then Failed AssertionError []
  else
    match build_run cfg (build_start in_chans) with
    | (st, Some e) => Failed e (layers st)
    | (st, None) =>
    let feature_info := st_feature_info st ++ [final_info st] in
    let head_hidden_size := 4096 in
    match
      ConvMlp_init (prev_chs st) head_hidden_size 7 mlp_ratio drop_rate
        act_layer
    with
    | Raise e => Failed e (layers st)
    | Ok pre_logits =>
        Built
          {| num_classes := num_classes;
             drop_rate := drop_rate;
             grad_checkpointing := false;
             use_norm := match norm_layer with Some _ => true | None => false end;
             feature_info := feature_info;
             features := layers st;
             num_features := prev_chs st;
             head_hidden_size := head_hidden_size;
             pre_logits := pre_logits;
             head :=
               ClassifierHead_init head_hidden_size num_classes global_pool
                 drop_rate |}
    end
    end.
End Builder.

(** [VGG.reset_classifier], over whatever [self.head.reset] does: the
    method is handed the head alone, and leaves it in some state whether it
    returns or raises.  The model after the call, and the exception that
    came out of it, if any. *)
Section ResetClassifier.
Variable head_reset :
  ClassifierHead -> Z -> option string -> ClassifierHead * option Exn.

Definition reset_classifier (self : VGG) (new_num_classes : Z)
    (global_pool : option string) : VGG * option Exn :=
  let (head', raised) := head_reset (head self) new_num_classes global_pool in
  ({| num_classes := new_num_classes;
      drop_rate := drop_rate self;
      grad_checkpointing := grad_checkpointing self;
      use_norm := use_norm self;
      feature_info := feature_info self;
      features := features self;
      num_features := num_features self;
      head_hidden_size := head_hidden_size self;
      pre_logits := pre_logits self;
      head := head' |},
   raised).
End ResetClassifier.

(** Counting the layers of one kind. *)
Definition is_conv (l : Layer) : bool :=
  match l with Conv _ => true | _ => false end.
Definition is_norm (l : Layer) : bool :=
  match l with Norm _ _ => true | _ => false end.
Definition is_act (l : Layer) : bool :=
  match l with Act _ _ => true | _ => false end.
Definition is_pool (l : Layer) : bool :=
  match l with MaxPool2d _ _ => true | _ => false end.
Definition count_layers (p : Layer -> bool) (ls : list Layer) : nat :=
  List.length (filter p ls).

Definition is_marker (v : LayerSpec) : bool :=
  match v with M => true | Ch _ => false end.

(** [variant.split('_')[0]]: the text before the first underscore. *)
Fixpoint split_head (sep : ascii) (s : string) : string :=
  match s with
  | EmptyString => EmptyString
  | String c s' => if Ascii.eqb c sep then EmptyString else String c (split_head sep s')
  end.

(** The configuration [_create_vgg] hands to the constructor:
    [cfgs[variant.split('_')[0]]]. *)
Definition model_cfg (variant : string) : option (list LayerSpec) :=
  cfgs_get (split_head "_" variant) cfgs.


(** ** Shapes through the feature stack *)

(** The shape [nn.MaxPool2d(kernel_size, stride)] returns, without padding
    or dilation: [floor((dim - kernel_size) / stride) + 1] in each spatial
    dimension; it raises on an empty channel dimension and when a spatial
    dimension is smaller than the kernel, which would leave no output
    position. *)
Definition maxpool2d_shape (k s : Z) (x : list Z) : option (list Z) :=
  match x with
  | [n; ch; h; w] =>
      if (0 <? s) && (0 <? ch) && (k <=? h) && (k <=? w)
      then Some [n; ch; (h - k) / s + 1; (w - k) / s + 1]
      else None
  | [ch; h; w] =>
      if (0 <? s) && (0 <? ch) && (k <=? h) && (k <=? w)
      then Some [ch; (h - k) / s + 1; (w - k) / s + 1]
      else None
  | _ => None
  end.

(** A normalization with the checks of [nn.BatchNorm2d] over [num_features]
    channels, on a batched input: it keeps the shape; it raises on another
    channel count and, in training mode, when a channel holds a single
    value ([n * h * w = 1]). *)
Definition norm_shape (training : bool) (num_features : Z) (x : list Z)
  : option (list Z) :=
  match x with
  | [n; ch; h; w] =>
      if (ch =? num_features) && negb (training && (n * h * w =? 1))
      then Some x
      else None
  | _ => None
  end.

(** One layer of [self.features] on shapes, the module being in training
    mode or not; an activation keeps the shape. *)
Definition layer_shape (training : bool) (l : Layer) (x : list Z)
  : option (list Z) :=
  match l with
  | Conv c => conv2d_shape c x
  | Norm _ nf => norm_shape training nf x
  | Act _ _ => Some x
  | MaxPool2d k s => maxpool2d_shape k s x
  end.

(** [self.features(x)] on shapes, for the [nn.Sequential] over [layers]: the
    layers in order, stopping at the first that raises. *)
Fixpoint features_forward (training : bool) (ls : list Layer) (x : list Z)
  : option (list Z) :=
  match ls with
  | [] => Some x
  | l :: ls' =>
      match layer_shape training l x with
      | None => None
      | Some y => features_forward training ls' y
      end
  end.

(** [VGG.forward_features]; [training] is the mode the model is in. *)
Definition forward_features (training : bool) (self : VGG) (x : list Z)
  : option (list Z) :=
  features_forward training (features self) x.

(** [VGG.forward_head] and [VGG.forward], over the forward pass of the
    classifier head, which takes the map and the pre-logits flag. *)
Section Forward.
Variable head_forward : ClassifierHead -> list Z -> bool -> option (list Z).


End Forward.

(** The wiring of a layer list from a given input width: every convolution
    and normalization takes the width the layers before it produce.  The
    result is the width the list ends with. *)
Fixpoint chain_width (width : Z) (ls : list Layer) : option Z :=
  match ls with
  | [] => Some width
  | Conv c :: ls' =>
      if in_channels c =? width then chain_width (out_channels c) ls' else None
  | Norm _ nf :: ls' => if nf =? width then chain_width width ls' else None
  | _ :: ls' => chain_width width ls'
  end.

(** The entry of [items] that is last renamed to [kr]. *)
Fixpoint last_renamed (kr : string) (items : StateDict)
  : option (string * Tensor) :=
  match items with
  | [] => None
  | (k, v) :: rest =>
      match last_renamed kr rest with
      | Some e => Some e
      | None => if String.eqb (rename_key k) kr then Some (k, v) else None
      end
  end.

(** What an entry of [feature_info] says about the layers [ls], for an input
    [n, in_chans, h, w]: it names a layer [k] of the stack, and the output
    of the layers up to and including that layer has [num_chs] channels
    and the input's spatial size divided by [reduction]. *)
Definition info_holds (training : bool) (ls : list Layer) (n in_chans h w : Z)
    (fi : FeatureInfo) : Prop :=
  exists k,
    module fi = ("features." ++ PyStr.format_int k)%string
    /\ 0 <= k < Z.of_nat (List.length ls)
    /\ features_forward training (firstn (Z.to_nat (k + 1)) ls)
         [n; in_chans; h; w]
       = Some [n; num_chs fi; h / reduction fi; w / reduction fi].

(** The widths a configuration needs for its layers to be built, and for
    them to run. *)
Definition width_nonneg (v : LayerSpec) : Prop :=
  match v with M => True | Ch c => 0 <= c end.
Definition width_pos (v : LayerSpec) : Prop :=
  match v with M => True | Ch c => 0 < c end.

(** Every channel width of the configuration is followed by a marker. *)
Fixpoint pooled_after (cfg : list LayerSpec) : bool :=
  match cfg with
  | [] => true
  | M :: cfg' => pooled_after cfg'
  | Ch _ :: cfg' => existsb is_marker cfg' && pooled_after cfg'
  end.

(** No normalization of the stack meets a single value per channel: the
    model is not in training mode, or has no normalization, or the batch
    has two samples, or every width is pooled later on (so that an input
    the markers fit is at least 2 by 2 where it is normalized). *)
Definition norm_safe (training : bool) (norm : option string) (n : Z)
    (cfg : list LayerSpec) : Prop :=
  training = false \/ norm = None \/ 2 <= n \/ pooled_after cfg = true.

(** The channel widths of a configuration. *)
Definition is_width (v : LayerSpec) : bool := negb (is_marker v).

(** The default [out_indices] of [_create_vgg]. *)
Definition default_out_indices : list nat := [0; 1; 2; 3; 4; 5]%nat.

(** Splitting a membership in a literal list into its cases. *)
Ltac in_cases H :=
  simpl in H;
  repeat (destruct H as [H|H]; [injection H as <- <-|]);
  try contradiction.

(** * Properties *)

(** ** The stage builder *)

Section BuilderFacts.
Variable act : string.
Variable norm : option string.

Lemma build_loop_cons v cfg st :
  build_loop act norm (v :: cfg) st
  = build_loop act norm cfg (build_step act norm st v).
Proof. reflexivity. Qed.

Lemma build_step_marker st :
  prev_chs (build_step act norm st M) = prev_chs st
  /\ net_stride (build_step act norm st M) = 2 * net_stride st.
Proof. split; [reflexivity | apply Z.mul_comm]. Qed.

(** The loop only ever appends to [layers]. *)
Lemma build_loop_layers_app cfg : forall st,
  exists ls, layers (build_loop act norm cfg st) = layers st ++ ls.
Proof.
  induction cfg as [|v cfg IH]; intros st.
  - exists []. simpl. now rewrite app_nil_r.
  - rewrite build_loop_cons. destruct (IH (build_step act norm st v)) as [ls Hls].
    rewrite Hls. destruct v; simpl.
    + eexists. now rewrite <- app_assoc.
    + destruct norm; eexists; now rewrite <- app_assoc.
Qed.

(** The loop only ever appends to [feature_info]. *)
Lemma build_loop_info_app cfg : forall st,
  exists fi,
    st_feature_info (build_loop act norm cfg st) = st_feature_info st ++ fi.
Proof.
  induction cfg as [|v cfg IH]; intros st.
  - exists []. simpl. now rewrite app_nil_r.
  - rewrite build_loop_cons. destruct (IH (build_step act norm st v)) as [fi Hfi].
    rewrite Hfi. destruct v; simpl.
    + eexists. now rewrite <- app_assoc.
    + now exists fi.
Qed.
End BuilderFacts.

(** The loop runs to its end exactly as [build_loop] computes, when no
    constructor raises. *)
Lemma build_run_ok act norm cfg : forall st st',
  build_run act norm cfg st = (st', None) -> st' = build_loop act norm cfg st.
Proof.
  induction cfg as [|v cfg IH]; intros st st' H; simpl in H.
  - now injection H as <-.
  - destruct (build_step_raises st v); [discriminate|]. now apply IH.
Qed.

(** Whatever the loop has built when it stops is the beginning of what
    [build_loop] computes. *)
Lemma build_run_prefix act norm cfg : forall st st' e,
  build_run act norm cfg st = (st', e) ->
  exists ls, layers (build_loop act norm cfg st) = layers st' ++ ls.
Proof.
  induction cfg as [|v cfg IH]; intros st st' e H; simpl in H.
  - injection H as <- _. exists []. simpl. now rewrite app_nil_r.
  - destruct (build_step_raises st v).
    + injection H as <- _. apply build_loop_layers_app.
    + rewrite build_loop_cons. eapply IH. eassumption.
Qed.

Lemma build_run_raises act norm cfg : forall st st' e,
  build_run act norm cfg st = (st', Some e) -> e = RuntimeError.
Proof.
  induction cfg as [|v cfg IH]; intros st st' e H; simpl in H; [discriminate|].
  destruct (build_step_raises st v) as [e0|] eqn:E.
  - injection H as _ <-. destruct v as [|c]; [discriminate|].
    unfold build_step_raises, Conv2d_init in E.
    destruct ((prev_chs st <? 0) || (c <? 0) || (3 <? 0)); [|discriminate].
    now injection E as <-.
  - eapply IH. eassumption.
Qed.

(** With non-negative widths every constructor of the loop returns. *)
Lemma build_run_nonneg act norm cfg : forall st,
  0 <= prev_chs st -> Forall width_nonneg cfg ->
  build_run act norm cfg st = (build_loop act norm cfg st, None)
  /\ 0 <= prev_chs (build_loop act norm cfg st).
Proof.
  induction cfg as [|v cfg IH]; intros st Hp Hw; [now split|].
  inversion Hw as [|? ? Hv Hw']; subst.
  rewrite build_loop_cons. cbn [build_run].
  destruct v as [|c]; cbn [build_step_raises].
  - apply IH; assumption.
  - unfold Conv2d_init. simpl in Hv.
    assert (E : (prev_chs st <? 0) || (c <? 0) || (3 <? 0) = false).
    { rewrite !orb_false_iff. repeat split; apply Z.ltb_ge; lia. }
    rewrite E. apply IH; [exact Hv | exact Hw'].
Qed.

Lemma Conv2d_init_ok cin cout k pad b :
  0 <= cin -> 0 <= cout -> 0 <= k ->
  Conv2d_init cin cout k pad b = Ok (mkConv2d cin cout k pad b).
Proof.
  intros H1 H2 H3. unfold Conv2d_init.
  assert (E : (cin <? 0) || (cout <? 0) || (k <? 0) = false).
  { rewrite !orb_false_iff. repeat split; apply Z.ltb_ge; lia. }
  now rewrite E.
Qed.

Lemma Conv2d_init_inv cin cout k pad b c :
  Conv2d_init cin cout k pad b = Ok c ->
  0 <= cin /\ 0 <= cout /\ 0 <= k /\ c = mkConv2d cin cout k pad b.
Proof.
  unfold Conv2d_init.
  destruct ((cin <? 0) || (cout <? 0) || (k <? 0)) eqn:E; [discriminate|].
  intros H. injection H as <-.
  rewrite !orb_false_iff in E. destruct E as [[E1 E2] E3].
  apply Z.ltb_ge in E1, E2, E3. repeat split; assumption.
Qed.

Lemma Dropout_init_inv p p' : Dropout_init p = Ok p' -> p' = p.
Proof.
  unfold Dropout_init. destruct (_ || _); [discriminate|].
  intros H. now injection H.
Qed.

(** What a built head adapter was built from. *)
Lemma ConvMlp_init_inv in_f out_f k ratio dr act m :
  ConvMlp_init in_f out_f k ratio dr act = Ok m ->
  exists mid,
    mid_features out_f ratio = Ok mid
    /\ 0 <= in_f /\ 0 <= mid /\ 0 <= k /\ 0 <= out_f
    /\ Dropout_init dr = Ok dr
    /\ m = {| input_kernel_size := k;
              fc1 := mkConv2d in_f mid k 0 true;
              act1 := Act act true;
              drop := dr;
              fc2 := mkConv2d mid out_f 1 0 true;
              act2 := Act act true |}.
Proof.
  unfold ConvMlp_init, bind.
  destruct (mid_features out_f ratio) as [mid|e]; [|discriminate].
  destruct (Conv2d_init in_f mid k 0 true) as [c1|e] eqn:E1; [|discriminate].
  destruct (Dropout_init dr) as [d|e] eqn:Ed; [|discriminate].
  destruct (Conv2d_init mid out_f 1 0 true) as [c2|e] eqn:E2; [|discriminate].
  intros H. injection H as <-.
  apply Conv2d_init_inv in E1, E2.
  destruct E1 as (H1 & H2 & H3 & ->). destruct E2 as (_ & H4 & _ & ->).
  pose proof (Dropout_init_inv _ _ Ed) as ->.
  exists mid. repeat split; assumption.
Qed.

Lemma ConvMlp_init_ok in_f out_f k ratio dr act mid :
  mid_features out_f ratio = Ok mid ->
  0 <= in_f -> 0 <= mid -> 0 <= k -> 0 <= out_f ->
  Dropout_init dr = Ok dr ->
  ConvMlp_init in_f out_f k ratio dr act
  = Ok {| input_kernel_size := k;
          fc1 := mkConv2d in_f mid k 0 true;
          act1 := Act act true;
          drop := dr;
          fc2 := mkConv2d mid out_f 1 0 true;
          act2 := Act act true |}.
Proof.
  intros Hmid H1 H2 H3 H4 Hd. unfold ConvMlp_init, bind.
  rewrite Hmid, (Conv2d_init_ok in_f mid k) by assumption.
  rewrite Hd, (Conv2d_init_ok mid out_f 1) by (assumption || lia).
  reflexivity.
Qed.

(** What a successful construction has stored. *)
Lemma VGG_init_built act norm cfg nc in_chans os ratio pool dr m :
  VGG_init act norm cfg nc in_chans os ratio pool dr = Built m ->
  let st := build_loop act norm cfg (build_start in_chans) in
  os = 32
  /\ features m = layers st
  /\ feature_info m = st_feature_info st ++ [final_info st]
  /\ num_features m = prev_chs st
  /\ num_classes m = nc
  /\ ConvMlp_init (prev_chs st) 4096 7 ratio dr act = Ok (pre_logits m).
Proof.
  unfold VGG_init. destruct (os =? 32) eqn:Hos; simpl; [|discriminate].
  destruct (build_run act norm cfg (build_start in_chans)) as [st [e|]] eqn:Hrun;
    [discriminate|].
  apply build_run_ok in Hrun. subst st.
  destruct (ConvMlp_init _ _ _ _ _ _) as [pl|e] eqn:Hpl; [|discriminate].
  intros H. injection H as <-. simpl.
  apply Z.eqb_eq in Hos. repeat split; auto.
Qed.

Lemma VGG_init_built_head act norm cfg nc in_chans os ratio pool dr m :
  VGG_init act norm cfg nc in_chans os ratio pool dr = Built m ->
  head_hidden_size m = 4096
  /\ head m = ClassifierHead_init 4096 nc pool dr
  /\ use_norm m = match norm with Some _ => true | None => false end.
Proof.
  unfold VGG_init. destruct (os =? 32); simpl; [|discriminate].
  destruct (build_run act norm cfg (build_start in_chans)) as [st [e|]];
    [discriminate|].
  destruct (ConvMlp_init _ _ _ _ _ _) as [pl|e]; [|discriminate].
  intros H. injection H as <-. simpl. repeat split.
Qed.

(** Construction goes through when the stride is 32, no width is negative
    and the dropout rate is a probability. *)
Lemma VGG_init_32 act norm cfg nc in_chans ratio pool dr mid :
  mid_features 4096 ratio = Ok mid -> 0 <= mid ->
  0 <= in_chans -> Forall width_nonneg cfg ->
  Dropout_init dr = Ok dr ->
  exists m, VGG_init act norm cfg nc in_chans 32 ratio pool dr = Built m.
Proof.
  intros Hmid Hm Hc Hw Hd. unfold VGG_init. simpl (negb _). cbv iota.
  destruct (build_run_nonneg act norm cfg (build_start in_chans) Hc Hw)
    as [-> Hp].
  rewrite (ConvMlp_init_ok _ 4096 7 ratio dr act mid) by (assumption || lia).
  eexists. reflexivity.
Qed.

Lemma ConvMlp_init_not_assertion in_f out_f k ratio dr act :
  ConvMlp_init in_f out_f k ratio dr act <> Raise AssertionError.
Proof.
  unfold ConvMlp_init, bind.
  destruct (mid_features out_f ratio) as [mid|e] eqn:Em.
  - unfold Conv2d_init, Dropout_init.
    repeat match goal with
           | |- context [if ?b then _ else _] => destruct b
           end; discriminate.
  - intros H. injection H as ->.
    revert Em. clear. unfold mid_features, PyNum.mul_int_float, PyNum.float_of_int.
    destruct (PyNum.dyadic out_f 0); try discriminate;
      match goal with
      | |- PyNum.int_of_float ?x = _ -> _ => destruct x; discriminate
      end.
Qed.

Lemma mid_features_not_assertion out_features ratio :
  mid_features out_features ratio <> Raise AssertionError.
Proof.
  unfold mid_features, PyNum.mul_int_float, PyNum.float_of_int.
  destruct (PyNum.dyadic out_features 0); try discriminate;
    match goal with
    | |- PyNum.int_of_float ?x <> _ => destruct x; discriminate
    end.
Qed.


(** C1: for each of vgg11, vgg13, vgg16 and vgg19 the loop meets five
    markers, emits five max-pools and five stage entries, and the entry
    recorded after the loop has stride 32 and 512 channels; a constructed
    model stores that entry last.  A marker step keeps the channel count
    and doubles the stride. *)
Theorem variants_five_stages :
  (forall act norm name cfg in_chans,
      In (name, cfg) cfgs ->
      let st := build_loop act norm cfg (build_start in_chans) in
      List.length (filter is_marker cfg) = 5%nat
      /\ count_layers is_pool (layers st) = 5%nat
      /\ List.length (st_feature_info st) = 5%nat
      /\ reduction (final_info st) = 32
      /\ num_chs (final_info st) = 512
      /\ forall nc os ratio pool dr m,
          VGG_init act norm cfg nc in_chans os ratio pool dr = Built m ->
          exists stages name',
            feature_info m = stages ++ [mkFeatureInfo 512 32 name']
            /\ List.length stages = 5%nat
            /\ num_features m = 512)
  /\ (forall act norm st,
         prev_chs (build_step act norm st M) = prev_chs st
         /\ net_stride (build_step act norm st M) = 2 * net_stride st).
Proof.
  split; [|intros; apply build_step_marker].
  intros act norm name cfg in_chans Hin st.
  assert (Hst : List.length (filter is_marker cfg) = 5%nat
                /\ count_layers is_pool (layers st) = 5%nat
                /\ List.length (st_feature_info st) = 5%nat
                /\ reduction (final_info st) = 32
                /\ num_chs (final_info st) = 512).
  { subst st. simpl in Hin.
    destruct Hin as [H|[H|[H|[H|[]]]]]; injection H as <- <-;
      destruct norm; vm_compute; repeat split; reflexivity. }
  destruct Hst as (Hm & Hp & Hl & Hr & Hc).
  repeat (split; [assumption|]).
  intros nc os ratio pool dr m Hb.
  apply VGG_init_built in Hb. destruct Hb as (_ & _ & Hfi & Hnf & _).
  fold st in Hfi, Hnf.
  exists (st_feature_info st), (module (final_info st)).
  rewrite Hfi, Hnf. repeat split; try assumption.
  f_equal. f_equal. destruct (final_info st); simpl in *. now subst.
Qed.

Lemma variants_five_stages_witness :
  In ("vgg16", [Ch 64; Ch 64; M; Ch 128; Ch 128; M; Ch 256; Ch 256; Ch 256; M;
                Ch 512; Ch 512; Ch 512; M; Ch 512; Ch 512; Ch 512; M]) cfgs
  /\ reduction
       (final_info
          (build_loop "ReLU" None
             [Ch 64; Ch 64; M; Ch 128; Ch 128; M; Ch 256; Ch 256; Ch 256; M;
              Ch 512; Ch 512; Ch 512; M; Ch 512; Ch 512; Ch 512; M]
             (build_start 3))) = 32
  /\ exists m stages name',
       VGG_init "ReLU" None
         [Ch 64; Ch 64; M; Ch 128; Ch 128; M; Ch 256; Ch 256; Ch 256; M;
          Ch 512; Ch 512; Ch 512; M; Ch 512; Ch 512; Ch 512; M]
         1000 3 32 (PyNum.dyadic 1 0) "avg" (S754_zero false) = Built m
       /\ feature_info m = stages ++ [mkFeatureInfo 512 32 name']
       /\ List.length stages = 5%nat
       /\ num_features m = 512.
Proof.
  assert (Hin : In ("vgg16",
                    [Ch 64; Ch 64; M; Ch 128; Ch 128; M; Ch 256; Ch 256; Ch 256; M;
                     Ch 512; Ch 512; Ch 512; M; Ch 512; Ch 512; Ch 512; M]) cfgs).
  { simpl. right. right. left. reflexivity. }
  destruct (proj1 variants_five_stages "ReLU" None _ _ 3 Hin)
    as (_ & _ & _ & Hred & _ & Hbuilt).
  split; [exact Hin|]. split; [exact Hred|].
  assert (Hb : exists m,
    VGG_init "ReLU" None
      [Ch 64; Ch 64; M; Ch 128; Ch 128; M; Ch 256; Ch 256; Ch 256; M;
       Ch 512; Ch 512; Ch 512; M; Ch 512; Ch 512; Ch 512; M]
      1000 3 32 (PyNum.dyadic 1 0) "avg" (S754_zero false) = Built m)
    by (eexists; vm_compute; reflexivity).
  destruct Hb as [m Hb].
  destruct (Hbuilt 1000 32 (PyNum.dyadic 1 0) "avg" (S754_zero false) m Hb)
    as (stages & name' & H).
  exists m, stages, name'. split; [exact Hb | exact H].
Defined.


(** C8: with an [output_stride] other than 32 the constructor stops at its
    assertion with no layer built; with 32 the assertion passes (whatever
    the constructor raises later is not the assertion, and comes after the
    layers built so far), and the model is returned with every layer of the
    configuration whenever the other arguments can be built from: no
    negative width, and a dropout rate that is a probability. *)
Theorem output_stride_assertion :
  forall act norm cfg nc in_chans ratio pool dr,
    (forall os, os <> 32 ->
       VGG_init act norm cfg nc in_chans os ratio pool dr
       = Failed AssertionError [])
    /\ (let st := build_loop act norm cfg (build_start in_chans) in
        match VGG_init act norm cfg nc in_chans 32 ratio pool dr with
        | Built m => features m = layers st
        | Failed e built =>
            e <> AssertionError /\ exists rest, layers st = built ++ rest
        end)
    /\ (forall mid,
          mid_features 4096 ratio = Ok mid -> 0 <= mid ->
          0 <= in_chans -> Forall width_nonneg cfg ->
          Dropout_init dr = Ok dr ->
          exists m, VGG_init act norm cfg nc in_chans 32 ratio pool dr = Built m).
Proof.
  intros act norm cfg nc in_chans ratio pool dr. split; [|split].
  - intros os Hos. unfold VGG_init.
    destruct (os =? 32) eqn:E; [apply Z.eqb_eq in E; contradiction|reflexivity].
  - cbv zeta. unfold VGG_init. simpl (negb _). cbv iota.
    destruct (build_run act norm cfg (build_start in_chans)) as [st [e|]] eqn:Hrun.
    + split.
      * apply build_run_raises in Hrun. subst e. discriminate.
      * eapply build_run_prefix. eassumption.
    + pose proof (build_run_ok _ _ _ _ _ Hrun) as ->.
      destruct (ConvMlp_init _ _ _ _ _ _) as [pl|e] eqn:Hpl.
      * reflexivity.
      * split; [|exists []; now rewrite app_nil_r]. intros ->.
        now apply ConvMlp_init_not_assertion in Hpl.
  - intros mid Hmid Hm Hc Hw Hd. now apply VGG_init_32 with (mid := mid).
Qed.

Lemma output_stride_assertion_witness :
  16 <> 32
  /\ VGG_init "ReLU" None [Ch 64; M] 1000 3 16 (PyNum.dyadic 1 0) "avg"
       (S754_zero false)
     = Failed AssertionError []
  /\ mid_features 4096 (PyNum.dyadic 1 0) = Ok 4096
  /\ Forall width_nonneg [Ch 64; M]
  /\ Dropout_init (S754_zero false) = Ok (S754_zero false)
  /\ exists m,
       VGG_init "ReLU" None [Ch 64; M] 1000 3 32 (PyNum.dyadic 1 0) "avg"
         (S754_zero false) = Built m.
Proof.
  assert (H : 16 <> 32) by discriminate.
  assert (Hmid : mid_features 4096 (PyNum.dyadic 1 0) = Ok 4096) by reflexivity.
  assert (Hw : Forall width_nonneg [Ch 64; M])
    by (repeat constructor; simpl; lia).
  assert (Hd : Dropout_init (S754_zero false) = Ok (S754_zero false))
    by reflexivity.
  destruct (output_stride_assertion "ReLU" None [Ch 64; M] 1000 3
              (PyNum.dyadic 1 0) "avg" (S754_zero false)) as (Hfail & _ & Hok).
  split; [exact H|]. split; [exact (Hfail 16 H)|].
  split; [exact Hmid|]. split; [exact Hw|]. split; [exact Hd|].
  refine (Hok 4096 Hmid _ _ Hw Hd); lia.
Defined.

(** C9: [reset_classifier] stores the new class count and hands the head
    to its [reset]; the feature layers, the head adapter, the stage entries
    and every other field stay as they were, whatever [reset] does, and the
    method raises only what [reset] raises.  With the head of the
    specification nothing is raised, and a class count of zero or less
    leaves an identity in place of the linear layer. *)
Theorem reset_classifier_frame :
  forall head_reset (self : VGG) (n : Z) (pool : option string),
    let self' := fst (reset_classifier head_reset self n pool) in
    (num_classes self' = n
     /\ features self' = features self
     /\ pre_logits self' = pre_logits self
     /\ feature_info self' = feature_info self
     /\ num_features self' = num_features self
     /\ head_hidden_size self' = head_hidden_size self
     /\ drop_rate self' = drop_rate self
     /\ grad_checkpointing self' = grad_checkpointing self
     /\ use_norm self' = use_norm self
     /\ head self' = fst (head_reset (head self) n pool)
     /\ snd (reset_classifier head_reset self n pool)
        = snd (head_reset (head self) n pool))
    /\ (let done := reset_classifier ClassifierHead_reset self n pool in
        snd done = None
        /\ num_classes (fst done) = n
        /\ head_fc (head (fst done))
           = (if n <=? 0 then Identity
              else Linear (head_in_features (head self)) n)).
Proof.
  intros head_reset self n pool. unfold reset_classifier. split.
  - destruct (head_reset (head self) n pool) as [h e]. simpl. repeat split.
  - simpl. repeat split.
Qed.

(** C10: a configuration that starts with a marker is built like any other:
    with stride 32, no negative width and a dropout rate that is a
    probability, the constructor returns the model, and its first stage
    entry has the input channel count, stride 1 and the module name
    [features.-1]. *)
Theorem leading_marker_stage_info :
  forall act norm rest nc in_chans ratio pool dr mid,
    mid_features 4096 ratio = Ok mid -> 0 <= mid ->
    0 <= in_chans -> Forall width_nonneg rest ->
    Dropout_init dr = Ok dr ->
    exists m,
      VGG_init act norm (M :: rest) nc in_chans 32 ratio pool dr = Built m
      /\ hd_error (feature_info m) = Some (mkFeatureInfo in_chans 1 "features.-1")
      /\ hd_error (features m) = Some (MaxPool2d 2 2).
Proof.
  intros act norm rest nc in_chans ratio pool dr mid Hmid Hm Hc Hw Hd.
  assert (Hw' : Forall width_nonneg (M :: rest)) by (constructor; [exact I|exact Hw]).
  destruct (VGG_init_32 act norm (M :: rest) nc in_chans ratio pool dr mid
              Hmid Hm Hc Hw' Hd) as [m Hb].
  exists m. split; [exact Hb|].
  apply VGG_init_built in Hb. destruct Hb as (_ & Hf & Hfi & _).
  rewrite Hf, Hfi, build_loop_cons.
  destruct (build_loop_info_app act norm rest
              (build_step act norm (build_start in_chans) M)) as [fi ->].
  destruct (build_loop_layers_app act norm rest
              (build_step act norm (build_start in_chans) M)) as [ls ->].
  split; reflexivity.
Qed.

Lemma leading_marker_stage_info_witness :
  mid_features 4096 (PyNum.dyadic 1 0) = Ok 4096
  /\ Forall width_nonneg [Ch 64]
  /\ Dropout_init (S754_zero false) = Ok (S754_zero false)
  /\ exists m,
      VGG_init "ReLU" None [M; Ch 64] 1000 3 32 (PyNum.dyadic 1 0) "avg"
        (S754_zero false) = Built m
      /\ hd_error (feature_info m) = Some (mkFeatureInfo 3 1 "features.-1")
      /\ hd_error (features m) = Some (MaxPool2d 2 2).
Proof.
  assert (H : mid_features 4096 (PyNum.dyadic 1 0) = Ok 4096) by reflexivity.
  assert (Hw : Forall width_nonneg [Ch 64]) by (repeat constructor; simpl; lia).
  assert (Hd : Dropout_init (S754_zero false) = Ok (S754_zero false))
    by reflexivity.
  split; [exact H|]. split; [exact Hw|]. split; [exact Hd|].
  refine (leading_marker_stage_info "ReLU" None [Ch 64] 1000 3
            (PyNum.dyadic 1 0) "avg" (S754_zero false) 4096 H _ _ Hw Hd); lia.
Defined.

(** ** The head adapter *)

Lemma trunc_mag_quot s m e :
  cond_Zopp s (PyNum.trunc_mag m e)
  = Z.quot (Qnum (PyNum.value (S754_finite s m e)))
           (Zpos (Qden (PyNum.value (S754_finite s m e)))).
Proof.
  unfold PyNum.trunc_mag, PyNum.value. destruct e as [|p|p].
  - change (0 <=? 0) with true. cbn [Qnum Qden inject_Z].
    now rewrite Z.quot_1_r, Z.shiftl_0_r.
  - change (0 <=? Zpos p) with true. cbn [Qnum Qden inject_Z].
    rewrite Z.quot_1_r, Z.shiftl_mul_pow2 by lia.
    generalize (2 ^ Zpos p). intros q.
    destruct s; unfold cond_Zopp; [now rewrite Z.mul_opp_l | reflexivity].
  - change (0 <=? Zneg p) with false. cbn [Qnum Qden].
    change (- Zneg p) with (Zpos p).
    rewrite Z.shiftr_div_pow2 by lia.
    rewrite Pos2Z.inj_pow.
    assert (Hpow : 0 < 2 ^ Zpos p) by (apply Z.pow_pos_nonneg; lia).
    revert Hpow. generalize (2 ^ Zpos p). intros q Hq.
    destruct s; unfold cond_Zopp.
    + change (Zneg m) with (- Zpos m).
      rewrite Z.quot_opp_l by lia. f_equal.
      symmetry. apply Z.quot_div_nonneg; lia.
    + symmetry. apply Z.quot_div_nonneg; lia.
Qed.

(** C7, as the code has it: the hidden width is [int(out_features *
    mlp_ratio)], the float product cut towards zero.  When neither it nor
    another width is negative and the dropout rate is a probability, the
    adapter is built: the first convolution maps [in_features] to the hidden
    width with the given kernel, the second is 1x1 and maps it to
    [out_features], both with bias.  A negative hidden width makes the
    first convolution raise. *)
Theorem hidden_width_truncates :
  forall in_f out_f k ratio dr act x,
    PyNum.mul_int_float out_f ratio = Ok x ->
    PyNum.is_finite x = true ->
    exists mid,
      mid_features out_f ratio = Ok mid
      /\ mid = Z.quot (Qnum (PyNum.value x)) (Zpos (Qden (PyNum.value x)))
      /\ (0 <= mid -> 0 <= in_f -> 0 <= out_f -> 0 <= k ->
          Dropout_init dr = Ok dr ->
          exists m,
            ConvMlp_init in_f out_f k ratio dr act = Ok m
            /\ fc1 m = mkConv2d in_f mid k 0 true
            /\ fc2 m = mkConv2d mid out_f 1 0 true)
      /\ (mid < 0 ->
          ConvMlp_init in_f out_f k ratio dr act = Raise RuntimeError).
Proof.
  intros in_f out_f k ratio dr act x Hx Hfin.
  assert (Hmid : exists mid,
             mid_features out_f ratio = Ok mid
             /\ mid = Z.quot (Qnum (PyNum.value x)) (Zpos (Qden (PyNum.value x)))).
  { unfold mid_features. rewrite Hx.
    destruct x as [s|s| |s m e]; try discriminate; simpl PyNum.int_of_float.
    - eexists. split; reflexivity.
    - eexists. split; [reflexivity | apply trunc_mag_quot]. }
  destruct Hmid as (mid & Hmid & Hq).
  exists mid. split; [exact Hmid|]. split; [exact Hq|]. split.
  - intros H0 H1 H2 H3 Hd. eexists. split.
    + apply ConvMlp_init_ok with (mid := mid); assumption.
    + split; reflexivity.
  - intros Hneg. unfold ConvMlp_init, bind, Conv2d_init. rewrite Hmid.
    apply Z.ltb_lt in Hneg. rewrite Hneg.
    now rewrite orb_true_r.
Qed.

Lemma hidden_width_truncates_witness :
  PyNum.mul_int_float 7 (PyNum.dyadic 1 (-2)) = Ok (PyNum.dyadic 7 (-2))
  /\ PyNum.is_finite (PyNum.dyadic 7 (-2)) = true
  /\ Dropout_init (S754_zero false) = Ok (S754_zero false)
  /\ exists mid m,
      mid_features 7 (PyNum.dyadic 1 (-2)) = Ok mid
      /\ mid = Z.quot (Qnum (PyNum.value (PyNum.dyadic 7 (-2))))
                 (Zpos (Qden (PyNum.value (PyNum.dyadic 7 (-2)))))
      /\ ConvMlp_init 512 7 7 (PyNum.dyadic 1 (-2)) (S754_zero false) "ReLU" = Ok m
      /\ fc1 m = mkConv2d 512 mid 7 0 true
      /\ fc2 m = mkConv2d mid 7 1 0 true.
Proof.
  assert (H1 : PyNum.mul_int_float 7 (PyNum.dyadic 1 (-2)) = Ok (PyNum.dyadic 7 (-2)))
    by reflexivity.
  assert (H2 : PyNum.is_finite (PyNum.dyadic 7 (-2)) = true) by reflexivity.
  assert (Hd : Dropout_init (S754_zero false) = Ok (S754_zero false))
    by reflexivity.
  split; [exact H1|]. split; [exact H2|]. split; [exact Hd|].
  destruct (hidden_width_truncates 512 7 7 (PyNum.dyadic 1 (-2)) (S754_zero false)
              "ReLU" (PyNum.dyadic 7 (-2)) H1 H2)
    as (mid & Hmid & Hq & Hok & _).
  assert (H0 : 0 <= mid) by (rewrite Hq; vm_compute; discriminate).
  destruct (Hok H0 ltac:(lia) ltac:(lia) ltac:(lia) Hd) as (m & Hm & Hf1 & Hf2).
  exists mid, m. repeat split; assumption.
Defined.

(** C7, as stated, fails: with [out_features = 7] and [mlp_ratio = 0.25] the
    product is 1.75, which [int] cuts to 1 and [round] takes to 2. *)
Lemma hidden_width_round_counterexample :
  mid_features 7 (PyNum.dyadic 1 (-2)) = Ok 1
  /\ mid_features_spec 7 (PyNum.dyadic 1 (-2)) = Ok 2
  /\ ~ (forall out_f ratio, mid_features out_f ratio = mid_features_spec out_f ratio).
Proof.
  split; [reflexivity|]. split; [reflexivity|].
  intros H. specialize (H 7 (PyNum.dyadic 1 (-2))). discriminate H.
Qed.




(** ** Strings: what [replace] does to a key *)

Module PyStrFacts.
Import PyStr.

Lemma startswith_split old : forall s,
  startswith old s = true -> exists rest, s = (old ++ rest)%string.
Proof.
  induction old as [|a old IH]; intros s H.
  - now exists s.
  - destruct s as [|b s]; simpl in H; [discriminate|].
    apply andb_true_iff in H. destruct H as [Hab H].
    apply Ascii.eqb_eq in Hab. subst b.
    destruct (IH s H) as [rest ->]. now exists rest.
Qed.

Lemma startswith_app_l a b : forall s,
  startswith (a ++ b) s = true -> startswith a s = true.
Proof.
  induction a as [|c a IH]; intros s H; [reflexivity|].
  destruct s as [|d s]; simpl in *; [discriminate|].
  apply andb_true_iff in H. destruct H as [Hcd H].
  rewrite Hcd. now apply IH.
Qed.

Lemma length_app (s1 s2 : string) :
  String.length (s1 ++ s2) = (String.length s1 + String.length s2)%nat.
Proof. induction s1 as [|c s1 IH]; simpl; [reflexivity | now rewrite IH]. Qed.

Lemma contains_cons sub c s :
  contains sub (String c s) = startswith sub (String c s) || contains sub s.
Proof. reflexivity. Qed.

(** A key that lacks a name lacks every longer name that starts with it. *)
Lemma contains_app_l a b : forall s,
  contains a s = false -> contains (a ++ b) s = false.
Proof.
  induction s as [|c s IH]; intros H.
  - simpl in *. apply orb_false_iff in H. destruct H as [H _].
    apply orb_false_iff. split; [|reflexivity].
    destruct (startswith (a ++ b) "") eqn:E; [|reflexivity].
    apply startswith_app_l in E. congruence.
  - rewrite contains_cons in *. apply orb_false_iff in H. destruct H as [H1 H2].
    apply orb_false_iff. split; [|now apply IH].
    destruct (startswith (a ++ b) (String c s)) eqn:E; [|reflexivity].
    apply startswith_app_l in E. congruence.
Qed.

Section Replace.
Variables old new : string.
Hypothesis old_nonempty : old <> EmptyString.

Lemma replace_nonempty s : replace old new s = replace_from old new O s.
Proof. unfold replace. destruct old; [contradiction | reflexivity]. Qed.

(** Dropping the rest of an occurrence. *)
Lemma replace_from_skip pre rest :
  replace_from old new (String.length pre) (pre ++ rest)
  = replace_from old new O rest.
Proof.
  induction pre as [|c pre IH]; simpl.
  - destruct rest; reflexivity.
  - exact IH.
Qed.

(** At an occurrence, [new] is written and the scan goes on behind it. *)
Lemma replace_from_hit c s :
  startswith old (String c s) = true ->
  exists rest,
    String c s = (old ++ rest)%string
    /\ replace_from old new O (String c s)
       = (new ++ replace_from old new O rest)%string.
Proof.
  intros H. destruct (startswith_split _ _ H) as [rest Hrest].
  exists rest. split; [exact Hrest|].
  simpl replace_from. rewrite H.
  destruct old as [|a o] eqn:Eold; [contradiction|].
  simpl in Hrest. injection Hrest as _ ->.
  simpl Nat.pred. f_equal. rewrite <- Eold. apply replace_from_skip.
Qed.

Lemma replace_from_miss c s :
  startswith old (String c s) = false ->
  replace_from old new O (String c s) = String c (replace_from old new O s).
Proof. intros H. simpl. now rewrite H. Qed.

(** Without an occurrence the string is returned as it is. *)
Lemma replace_absent : forall s,
  contains old s = false -> replace old new s = s.
Proof.
  intros s. rewrite replace_nonempty.
  induction s as [|c s IH]; intros H; [reflexivity|].
  rewrite contains_cons in H. apply orb_false_iff in H. destruct H as [H1 H2].
  rewrite replace_from_miss by assumption. now rewrite IH.
Qed.

Lemma count_app a (s1 s2 : string) :
  count a (s1 ++ s2) = (count a s1 + count a s2)%nat.
Proof. induction s1 as [|c s1 IH]; simpl; [reflexivity | rewrite IH; lia]. Qed.

Section Count.
Variable a : ascii.
Hypothesis old_free : count a old = O.

(** A character that [old] does not have is never lost. *)
Lemma count_replace_le : forall n s,
  (String.length s <= n)%nat ->
  (count a s <= count a (replace_from old new O s))%nat.
Proof.
  induction n as [|n IH]; intros s Hlen.
  - destruct s; simpl in *; lia.
  - destruct s as [|c s]; [simpl; lia|].
    destruct (startswith old (String c s)) eqn:E.
    + destruct (replace_from_hit c s E) as (rest & Hs & ->).
      rewrite Hs, !count_app, old_free.
      assert (Hl : (String.length rest <= n)%nat).
      { rewrite Hs, length_app in Hlen.
        destruct old; [contradiction | simpl in Hlen; lia]. }
      specialize (IH rest Hl). lia.
    + rewrite replace_from_miss by assumption. simpl.
      assert (Hl : (String.length s <= n)%nat) by (simpl in Hlen; lia).
      specialize (IH s Hl). lia.
Qed.

(** If [new] has the character, every occurrence of [old] adds one. *)
Lemma count_replace_lt : forall s,
  (0 < count a new)%nat ->
  contains old s = true ->
  (count a s < count a (replace_from old new O s))%nat.
Proof.
  intros s Hnew. induction s as [|c s IH]; intros H.
  - simpl in H. rewrite orb_false_r in H.
    destruct old; [contradiction | discriminate].
  - rewrite contains_cons in H.
    destruct (startswith old (String c s)) eqn:E.
    + destruct (replace_from_hit c s E) as (rest & Hs & ->).
      rewrite Hs, !count_app, old_free.
      pose proof (count_replace_le _ rest (le_n _)). lia.
    + rewrite replace_from_miss by assumption. simpl in *.
      specialize (IH H). lia.
Qed.
End Count.
End Replace.

End PyStrFacts.

(** ** Dictionaries *)

Module PyDictFacts.
Import PyDict.

Section Facts.
Context {V : Type}.
Implicit Types (d : dict V) (k : string) (v : V).

Lemma lookup_set_same k v d : lookup k (set k v d) = Some v.
Proof.
  induction d as [|[k' v'] d IH]; simpl.
  - now rewrite String.eqb_refl.
  - destruct (String.eqb k k') eqn:E; simpl; rewrite E; [reflexivity | exact IH].
Qed.

Lemma lookup_set_other k k0 v d :
  k0 <> k -> lookup k0 (set k v d) = lookup k0 d.
Proof.
  intros Hne. induction d as [|[k' v'] d IH]; simpl.
  - apply String.eqb_neq in Hne. now rewrite Hne.
  - destruct (String.eqb k k') eqn:E; simpl.
    + apply String.eqb_eq in E. subst k'.
      apply String.eqb_neq in Hne. now rewrite Hne.
    + now rewrite IH.
Qed.

(** Assigning to a new key appends the entry. *)
Lemma set_fresh k v d : ~ In k (keys d) -> set k v d = d ++ [(k, v)].
Proof.
  induction d as [|[k' v'] d IH]; simpl; intros Hk; [reflexivity|].
  destruct (String.eqb k k') eqn:E.
  - apply String.eqb_eq in E. subst. tauto.
  - rewrite IH by tauto. reflexivity.
Qed.

(** Assigning to a present key leaves the keys as they are. *)
Lemma keys_set_present k v d : In k (keys d) -> keys (set k v d) = keys d.
Proof.
  induction d as [|[k' v'] d IH]; simpl; intros Hk; [contradiction|].
  destruct (String.eqb k k') eqn:E; simpl; [reflexivity|].
  apply String.eqb_neq in E. f_equal. apply IH.
  destruct Hk; [congruence | assumption].
Qed.

Lemma keys_set k v d :
  exists tail, keys (set k v d) = keys d ++ tail
               /\ (List.length tail <= 1)%nat
               /\ (In k (keys d) -> tail = [])
               /\ (~ In k (keys d) -> tail = [k]).
Proof.
  destruct (in_dec string_dec k (keys d)) as [Hin|Hout].
  - exists []. rewrite keys_set_present, app_nil_r by assumption.
    repeat split; auto. tauto.
  - exists [k]. rewrite set_fresh by assumption. unfold keys.
    rewrite map_app. simpl. repeat split; auto. tauto.
Qed.

Lemma wf_set k v d : wf d -> wf (set k v d).
Proof.
  unfold wf. intros Hd.
  destruct (in_dec string_dec k (keys d)) as [Hin|Hout].
  - now rewrite keys_set_present.
  - rewrite set_fresh by assumption. unfold keys in *. rewrite map_app. simpl.
    apply NoDup_app; [assumption | repeat constructor; simpl; tauto |].
    intros x Hx [<-|[]]. contradiction.
Qed.

Lemma lookup_In k v d : wf d -> In (k, v) d -> lookup k d = Some v.
Proof.
  unfold wf. induction d as [|[k' v'] d IH]; simpl; intros Hd Hin; [contradiction|].
  inversion Hd as [|? ? Hk' Hd']; subst.
  destruct Hin as [Heq|Hin].
  - injection Heq as -> ->. now rewrite String.eqb_refl.
  - destruct (String.eqb k k') eqn:E.
    + apply String.eqb_eq in E. subst k'.
      exfalso. apply Hk'. change k with (fst (k, v)). now apply in_map.
    + now apply IH.
Qed.
End Facts.

End PyDictFacts.

(** ** The checkpoint filter *)

Section FilterFacts.
Import PyDict PyDictFacts PyStrFacts.

Lemma rename_key_fixed k : has_legacy k = false -> rename_key k = k.
Proof.
  unfold has_legacy, rename_key. intros H.
  apply orb_false_iff in H. destruct H as [H H6].
  apply orb_false_iff in H. destruct H as [H0 H3].
  rewrite (replace_absent "classifier.0") by (discriminate || assumption).
  rewrite (replace_absent "classifier.3") by (discriminate || assumption).
  now rewrite (replace_absent "classifier.6") by (discriminate || assumption).
Qed.

(** A key with a legacy name in it is changed: the renaming adds a [p] or
    an [h] for each name it replaces and removes none. *)
Lemma rename_key_moves k : has_legacy k = true -> rename_key k <> k.
Proof.
  unfold has_legacy, rename_key. intros H Heq.
  set (r0 := PyStr.replace "classifier.0" "pre_logits.fc1" k) in *.
  set (r3 := PyStr.replace "classifier.3" "pre_logits.fc2" r0) in *.
  assert (N0 : "classifier.0" <> "") by discriminate.
  assert (N3 : "classifier.3" <> "") by discriminate.
  assert (N6 : "classifier.6" <> "") by discriminate.
  assert (Lp3 : (PyStr.count "p" r0 <= PyStr.count "p" r3)%nat).
  { subst r3. rewrite replace_nonempty by assumption.
    now apply count_replace_le with (n := String.length r0). }
  assert (Lp6 : (PyStr.count "p" r3
                 <= PyStr.count "p" (PyStr.replace "classifier.6" "head.fc" r3))%nat).
  { rewrite replace_nonempty by assumption.
    now apply count_replace_le with (n := String.length r3). }
  destruct (PyStr.contains "classifier.0" k) eqn:E0.
  - assert (Lt : (PyStr.count "p" k < PyStr.count "p" r0)%nat).
    { subst r0. rewrite replace_nonempty by assumption.
      apply count_replace_lt; auto; try (simpl; lia). }
    rewrite Heq in Lp6. lia.
  - assert (R0 : r0 = k) by (subst r0; now apply replace_absent).
    destruct (PyStr.contains "classifier.3" k) eqn:E3.
    + assert (Lt : (PyStr.count "p" r0 < PyStr.count "p" r3)%nat).
      { subst r3. rewrite replace_nonempty by assumption.
        apply count_replace_lt; auto; try (simpl; lia); try (now rewrite R0). }
      rewrite Heq in Lp6. rewrite R0 in Lt. lia.
    + assert (R3 : r3 = k).
      { subst r3. rewrite R0. now apply replace_absent. }
      simpl in H.
      assert (Lt : (PyStr.count "h" r3
                    < PyStr.count "h" (PyStr.replace "classifier.6" "head.fc" r3))%nat).
      { rewrite replace_nonempty by assumption.
        apply count_replace_lt; auto; try (simpl; lia); try (now rewrite R3). }
      rewrite Heq, R3 in Lt. lia.
Qed.

Lemma rename_key_fixed_iff k : rename_key k = k <-> has_legacy k = false.
Proof.
  split; [|apply rename_key_fixed].
  intros H. destruct (has_legacy k) eqn:E; [|reflexivity].
  now apply rename_key_moves in E.
Qed.

(** A key without a legacy name triggers no [reshape]. *)
Lemma remap_value_plain k v : has_legacy k = false -> remap_value k v = Some v.
Proof.
  unfold has_legacy, remap_value. intros H.
  apply orb_false_iff in H. destruct H as [H H6].
  apply orb_false_iff in H. destruct H as [H0 H3].
  change "classifier.0.weight" with ("classifier.0" ++ ".weight")%string.
  change "classifier.3.weight" with ("classifier.3" ++ ".weight")%string.
  now rewrite !contains_app_l by assumption.
Qed.

Lemma reshape_infer_some dims t :
  fold_right Z.mul 1 dims <> 0 ->
  numel t mod fold_right Z.mul 1 dims = 0 ->
  reshape_infer dims t
  = Some (mkTensor (numel t / fold_right Z.mul 1 dims :: dims) (elements t)).
Proof.
  intros Hp Hm. unfold reshape_infer.
  apply Z.eqb_neq in Hp. rewrite Hp, Hm. reflexivity.
Qed.

(** A successful [reshape] keeps the number of elements. *)
Lemma numel_reshape dims t t' :
  reshape_infer dims t = Some t' -> numel t' = numel t /\ elements t' = elements t.
Proof.
  unfold reshape_infer.
  destruct (fold_right Z.mul 1 dims =? 0) eqn:Hp; [discriminate|].
  destruct (numel t mod fold_right Z.mul 1 dims =? 0) eqn:Hm; [|discriminate].
  simpl. intros H. injection H as <-. split; [|reflexivity].
  unfold numel at 1. simpl.
  apply Z.eqb_neq in Hp. apply Z.eqb_eq in Hm.
  apply Z.div_exact in Hm; [|assumption]. lia.
Qed.

Lemma remap_value_ok k v :
  reshape_ok k v -> exists v', remap_value k v = Some v'.
Proof.
  intros [H0 H3]. unfold remap_value.
  destruct (PyStr.contains "classifier.0.weight" k).
  - rewrite (reshape_infer_some [512; 7; 7]) by (discriminate || auto).
    destruct (PyStr.contains "classifier.3.weight" k); [|eauto].
    rewrite (reshape_infer_some [4096; 1; 1]); [eauto | discriminate |].
    change (numel _) with
      (numel v / fold_right Z.mul 1 [512; 7; 7] * fold_right Z.mul 1 [512; 7; 7]).
    specialize (H0 eq_refl). specialize (H3 eq_refl).
    change (fold_right Z.mul 1 [512; 7; 7]) with 25088.
    change (fold_right Z.mul 1 [4096; 1; 1]) with 4096.
    apply Z.div_exact in H0; [|discriminate].
    rewrite Z.mul_comm, <- H0. exact H3.
  - destruct (PyStr.contains "classifier.3.weight" k); [|eauto].
    rewrite (reshape_infer_some [4096; 1; 1]) by (discriminate || auto). eauto.
Qed.

(** The loop leaves alone every output key that no item is renamed to. *)
Lemma filter_loop_untouched kr : forall items acc out,
  filter_loop items acc = Some out ->
  (forall k v, In (k, v) items -> rename_key k <> kr) ->
  lookup kr out = lookup kr acc.
Proof.
  induction items as [|[k0 v0] rest IH]; intros acc out H Hne; simpl in H.
  - now injection H as <-.
  - destruct (remap_value k0 v0) as [v0'|]; [|discriminate].
    rewrite (IH _ _ H) by (intros; eapply Hne; right; eauto).
    apply lookup_set_other. intros ->. eapply Hne; [left; reflexivity|reflexivity].
Qed.

(** An entry that no other entry clashes with is found in the output,
    under its renamed key, with its remapped value. *)
Lemma filter_loop_entry k v : forall items acc out,
  wf items -> In (k, v) items -> no_clash k items ->
  filter_loop items acc = Some out ->
  exists v', remap_value k v = Some v' /\ lookup (rename_key k) out = Some v'.
Proof.
  induction items as [|[k0 v0] rest IH]; intros acc out Hwf Hin Hnc H;
    [contradiction|].
  simpl in H. destruct (remap_value k0 v0) as [v0'|] eqn:Hv; [|discriminate].
  inversion Hwf as [|? ? Hk0 Hrest]; subst.
  destruct Hin as [Heq|Hin].
  - injection Heq as -> ->. exists v0'. split; [assumption|].
    rewrite (filter_loop_untouched _ _ _ _ H).
    + apply lookup_set_same.
    + intros k' v' Hin' Hren.
      assert (k' = k) by (eapply Hnc; [right; eauto | assumption]). subst k'.
      apply Hk0. change k with (fst (k, v')). now apply in_map.
  - eapply IH; eauto.
    intros k' v' Hin' Hren. eapply Hnc; [right; eauto | assumption].
Qed.

Lemma filter_loop_wf : forall items acc out,
  wf acc -> filter_loop items acc = Some out -> wf out.
Proof.
  induction items as [|[k0 v0] rest IH]; intros acc out Hwf H; simpl in H.
  - now injection H as <-.
  - destruct (remap_value k0 v0) as [v0'|]; [|discriminate].
    eapply IH; [|eassumption]. now apply wf_set.
Qed.

(** Items without legacy names are appended as they are. *)
Lemma filter_loop_plain : forall items acc,
  (forall k v, In (k, v) items -> has_legacy k = false) ->
  wf (acc ++ items) ->
  filter_loop items acc = Some (acc ++ items).
Proof.
  induction items as [|[k0 v0] rest IH]; intros acc Hpl Hwf; simpl.
  - now rewrite app_nil_r.
  - assert (H0 : has_legacy k0 = false) by (eapply Hpl; left; reflexivity).
    rewrite remap_value_plain, rename_key_fixed by assumption.
    assert (Hfresh : ~ In k0 (keys acc)).
    { unfold wf, keys in Hwf. rewrite map_app in Hwf. simpl in Hwf.
      apply NoDup_remove_2 in Hwf. intros Hk. apply Hwf.
      apply in_or_app. now left. }
    rewrite set_fresh by assumption.
    rewrite IH.
    + now rewrite <- app_assoc.
    + intros; eapply Hpl; right; eauto.
    + now rewrite <- app_assoc.
Qed.

Lemma filter_loop_total : forall items acc,
  (forall k v, In (k, v) items -> reshape_ok k v) ->
  exists out, filter_loop items acc = Some out.
Proof.
  induction items as [|[k0 v0] rest IH]; intros acc Hok; simpl; [eauto|].
  destruct (remap_value_ok k0 v0) as [v0' ->]; [apply Hok; now left|].
  apply IH. intros; apply Hok; now right.
Qed.
(** The loop keeps the keys it starts from, in place, and adds at most
    one key per item. *)
Lemma filter_loop_keys : forall items acc out,
  filter_loop items acc = Some out ->
  exists tail, keys out = keys acc ++ tail
               /\ (List.length tail <= List.length items)%nat.
Proof.
  induction items as [|[k0 v0] rest IH]; intros acc out H; simpl in H.
  - injection H as <-. exists []. now rewrite app_nil_r.
  - destruct (remap_value k0 v0) as [v0'|]; [|discriminate].
    destruct (IH _ _ H) as (t2 & Ht2 & Hl2).
    destruct (keys_set (rename_key k0) v0' acc) as (t1 & Ht1 & Hl1 & _).
    exists (t1 ++ t2). rewrite Ht2, Ht1, <- app_assoc. split; [reflexivity|].
    rewrite List.length_app. cbn [List.length]. lia.
Qed.

(** If the loop returns its items appended as they are, none of them has
    a legacy name. *)
Lemma filter_loop_plain_inv : forall items acc,
  filter_loop items acc = Some (acc ++ items) ->
  forall k v, In (k, v) items -> has_legacy k = false.
Proof.
  induction items as [|[k0 v0] rest IH]; intros acc H k v Hin; [contradiction|].
  simpl in H. destruct (remap_value k0 v0) as [v0'|] eqn:Hv; [|discriminate].
  destruct (filter_loop_keys _ _ _ H) as (t2 & Ht2 & Hl2).
  destruct (keys_set (rename_key k0) v0' acc) as (t1 & Ht1 & Hl1 & Hpres & Hfresh).
  rewrite Ht1 in Ht2. unfold keys in Ht2 at 1. rewrite map_app in Ht2.
  rewrite <- app_assoc in Ht2. apply app_inv_head in Ht2. simpl in Ht2.
  assert (Hout : ~ In (rename_key k0) (keys acc)).
  { intros Hk. rewrite (Hpres Hk) in Ht2. simpl in Ht2.
    apply (f_equal (@List.length string)) in Ht2. simpl in Ht2.
    rewrite length_map in Ht2. lia. }
  rewrite (Hfresh Hout) in Ht2. simpl in Ht2. injection Ht2 as Hk0 _.
  assert (Hpl : has_legacy k0 = false) by (now apply rename_key_fixed_iff).
  destruct Hin as [Heq|Hin]; [now injection Heq as <- <-|].
  rewrite remap_value_plain in Hv by assumption. injection Hv as <-.
  rewrite set_fresh in H by assumption. rewrite <- Hk0 in H.
  apply (IH (acc ++ [(k0, v0)])) with (v := v); [|assumption].
  now rewrite <- app_assoc.
Qed.
End FilterFacts.

(** The entry of a well-formed input under a given key, followed through
    [_filter_fn]. *)
Lemma filter_fn_entry d out k v :
  PyDict.wf d -> _filter_fn d = Some out -> In (k, v) d -> no_clash k d ->
  exists v', remap_value k v = Some v'
             /\ PyDict.lookup (rename_key k) out = Some v'.
Proof.
  intros Hwf Hout Hin Hnc. eapply filter_loop_entry; eauto.
Qed.

(** C3, as the code has it: when no [reshape] raises, the filter returns a
    map in which the tensor of [classifier.0.weight], of shape (out, in),
    sits under [pre_logits.fc1.weight] with shape (out*in/25088, 512, 7, 7),
    which is (out, 512, 7, 7) for in = 25088; the tensor of
    [classifier.3.weight], of shape (out, mid), sits under
    [pre_logits.fc2.weight] with shape (out*mid/4096, 4096, 1, 1), which is
    (out, mid, 1, 1) for mid = 4096; the tensors of [classifier.6.weight] and
    [classifier.6.bias] sit under [head.fc.weight] and [head.fc.bias] as they
    were.  Each holds for an entry that no other entry is renamed onto. *)
Theorem legacy_weights_remapped :
  forall d,
    PyDict.wf d ->
    (forall k v, In (k, v) d -> reshape_ok k v) ->
    exists out,
      _filter_fn d = Some out
      /\ (forall v o i,
             In ("classifier.0.weight", v) d -> shape v = [o; i] ->
             no_clash "classifier.0.weight" d ->
             PyDict.lookup "pre_logits.fc1.weight" out
             = Some (mkTensor [o * i / 25088; 512; 7; 7] (elements v))
             /\ (i = 25088 -> o * i / 25088 = o))
      /\ (forall v o mid,
             In ("classifier.3.weight", v) d -> shape v = [o; mid] ->
             no_clash "classifier.3.weight" d ->
             PyDict.lookup "pre_logits.fc2.weight" out
             = Some (mkTensor [o * mid / 4096; 4096; 1; 1] (elements v))
             /\ (mid = 4096 -> o * mid / 4096 = o))
      /\ (forall v,
             In ("classifier.6.weight", v) d ->
             no_clash "classifier.6.weight" d ->
             PyDict.lookup "head.fc.weight" out = Some v)
      /\ (forall v,
             In ("classifier.6.bias", v) d ->
             no_clash "classifier.6.bias" d ->
             PyDict.lookup "head.fc.bias" out = Some v).
Proof.
  intros d Hwf Hok.
  destruct (filter_loop_total d [] Hok) as [out Hout].
  exists out. split; [exact Hout|].
  split; [|split; [|split]].
  - intros v o i Hin Hsh Hnc.
    destruct (filter_fn_entry d out _ v Hwf Hout Hin Hnc) as (v' & Hv & Hl).
    match type of Hl with
    | PyDict.lookup ?r _ = _ => let r' := eval vm_compute in r in change r with r' in Hl
    end.
    split.
    + rewrite Hl. f_equal.
      destruct (Hok _ _ Hin) as [H0 _]. specialize (H0 eq_refl).
      change (remap_value "classifier.0.weight" v)
        with (match reshape_infer [512; 7; 7] v with
              | Some t => Some t
              | None => None
              end) in Hv.
      rewrite reshape_infer_some in Hv by (discriminate || exact H0).
      injection Hv as <-. unfold numel. rewrite Hsh. simpl fold_right.
      now rewrite Z.mul_1_r.
    + intros ->. apply Z.div_mul. discriminate.
  - intros v o mid Hin Hsh Hnc.
    destruct (filter_fn_entry d out _ v Hwf Hout Hin Hnc) as (v' & Hv & Hl).
    match type of Hl with
    | PyDict.lookup ?r _ = _ => let r' := eval vm_compute in r in change r with r' in Hl
    end.
    split.
    + rewrite Hl. f_equal.
      destruct (Hok _ _ Hin) as [_ H3]. specialize (H3 eq_refl).
      change (remap_value "classifier.3.weight" v)
        with (reshape_infer [4096; 1; 1] v) in Hv.
      rewrite reshape_infer_some in Hv by (discriminate || exact H3).
      injection Hv as <-. unfold numel. rewrite Hsh. simpl fold_right.
      now rewrite Z.mul_1_r.
    + intros ->. apply Z.div_mul. discriminate.
  - intros v Hin Hnc.
    destruct (filter_fn_entry d out _ v Hwf Hout Hin Hnc) as (v' & Hv & Hl).
    match type of Hl with
    | PyDict.lookup ?r _ = _ => let r' := eval vm_compute in r in change r with r' in Hl
    end.
    rewrite Hl. now injection Hv as <-.
  - intros v Hin Hnc.
    destruct (filter_fn_entry d out _ v Hwf Hout Hin Hnc) as (v' & Hv & Hl).
    match type of Hl with
    | PyDict.lookup ?r _ = _ => let r' := eval vm_compute in r in change r with r' in Hl
    end.
    rewrite Hl. now injection Hv as <-.
Qed.

(** C3, as stated, fails: a second weight of shape (4096, 2048) comes out
    with shape (2048, 4096, 1, 1), not (4096, 2048, 1, 1). *)
Lemma legacy_fc2_shape_counterexample :
  _filter_fn [("classifier.3.weight", mkTensor [4096; 2048] 1%N)]
  = Some [("pre_logits.fc2.weight", mkTensor [2048; 4096; 1; 1] 1%N)]
  /\ ~ (forall d out v o mid,
          _filter_fn d = Some out ->
          In ("classifier.3.weight", v) d -> shape v = [o; mid] ->
          exists v', PyDict.lookup "pre_logits.fc2.weight" out = Some v'
                     /\ shape v' = [o; mid; 1; 1]).
Proof.
  split; [reflexivity|].
  intros H.
  destruct (H [("classifier.3.weight", mkTensor [4096; 2048] 1%N)]
              [("pre_logits.fc2.weight", mkTensor [2048; 4096; 1; 1] 1%N)]
              (mkTensor [4096; 2048] 1%N) 4096 2048
              eq_refl (or_introl eq_refl) eq_refl) as (v' & Hl & Hs).
  simpl in Hl. injection Hl as <-. discriminate Hs.
Qed.

(** C4, as the code has it: a key is renamed exactly when one of the three
    legacy names occurs somewhere in it; an entry whose key has none, and
    onto which no other entry is renamed, is in the output under the same
    key with the same tensor; and a map none of whose keys has a legacy
    name is returned as it is, with no error. *)
Theorem plain_keys_pass_through :
  (forall k, rename_key k = k <-> has_legacy k = false)
  /\ (forall d out k v,
         PyDict.wf d -> _filter_fn d = Some out ->
         In (k, v) d -> has_legacy k = false -> no_clash k d ->
         PyDict.lookup k out = Some v)
  /\ (forall d,
         PyDict.wf d ->
         (forall k v, In (k, v) d -> has_legacy k = false) ->
         _filter_fn d = Some d).
Proof.
  split; [exact rename_key_fixed_iff|]. split.
  - intros d out k v Hwf Hout Hin Hpl Hnc.
    destruct (filter_fn_entry d out k v Hwf Hout Hin Hnc) as (v' & Hv & Hl).
    rewrite rename_key_fixed in Hl by assumption.
    rewrite remap_value_plain in Hv by assumption.
    now injection Hv as <-.
  - intros d Hwf Hpl. unfold _filter_fn.
    now rewrite filter_loop_plain.
Qed.

(** C4, as stated, fails: [module.classifier.0.bias] does not begin with a
    legacy prefix, and yet it is renamed. *)
Lemma prefix_reading_counterexample :
  starts_with_legacy "module.classifier.0.bias" = false
  /\ _filter_fn [("module.classifier.0.bias", mkTensor [4096] 1%N)]
     = Some [("module.pre_logits.fc1.bias", mkTensor [4096] 1%N)]
  /\ ~ (forall d out k v,
          _filter_fn d = Some out -> In (k, v) d ->
          starts_with_legacy k = false ->
          PyDict.lookup k out = Some v).
Proof.
  split; [reflexivity|]. split; [reflexivity|].
  intros H.
  specialize (H [("module.classifier.0.bias", mkTensor [4096] 1%N)]
                [("module.pre_logits.fc1.bias", mkTensor [4096] 1%N)]
                "module.classifier.0.bias" (mkTensor [4096] 1%N)
                eq_refl (or_introl eq_refl) eq_refl).
  discriminate H.
Qed.

(** C5, as the code has it: filtering the output of the filter again
    returns that output unchanged exactly when none of its keys has a
    legacy name in it. *)
Theorem filter_twice_iff_no_legacy_left :
  forall d out,
    _filter_fn d = Some out ->
    (_filter_fn out = Some out
     <-> forall k v, In (k, v) out -> has_legacy k = false).
Proof.
  intros d out Hout. unfold _filter_fn. split.
  - intros H. now apply (filter_loop_plain_inv out []).
  - intros Hpl. apply filter_loop_plain; [assumption|].
    simpl. eapply filter_loop_wf; [|exact Hout]. constructor.
Qed.

(** C5, as stated, fails: replacing [classifier.6] by [head.fc] in front of
    [lassifier.0] writes a new [classifier.0], which a second pass renames
    and reshapes. *)
Lemma filter_twice_counterexample :
  _filter_fn [("classifier.6lassifier.0.weight", mkTensor [4096; 25088] 1%N)]
  = Some [("head.fclassifier.0.weight", mkTensor [4096; 25088] 1%N)]
  /\ _filter_fn [("head.fclassifier.0.weight", mkTensor [4096; 25088] 1%N)]
     = Some [("head.fpre_logits.fc1.weight", mkTensor [4096; 512; 7; 7] 1%N)]
  /\ ~ (forall d out, _filter_fn d = Some out -> _filter_fn out = Some out).
Proof.
  split; [reflexivity|]. split; [reflexivity|].
  intros H.
  specialize (H [("classifier.6lassifier.0.weight", mkTensor [4096; 25088] 1%N)]
                _ eq_refl).
  discriminate H.
Qed.

(** ** The legacy layout, end to end *)

Lemma legacy_checkpoint_wf : PyDict.wf legacy_checkpoint.
Proof.
  unfold PyDict.wf, legacy_checkpoint. simpl.
  repeat (constructor; [simpl; intuition discriminate|]). constructor.
Defined.

Lemma legacy_checkpoint_reshape_ok :
  forall k v, In (k, v) legacy_checkpoint -> reshape_ok k v.
Proof.
  intros k v H. unfold legacy_checkpoint in H.
  in_cases H; split; intros Hc; try discriminate Hc; reflexivity.
Defined.

Lemma legacy_checkpoint_no_clash :
  forall k v, In (k, v) legacy_checkpoint -> no_clash k legacy_checkpoint.
Proof.
  intros k v H k' v' H' Hren. unfold legacy_checkpoint in H, H'.
  in_cases H; in_cases H'; try reflexivity; vm_compute in Hren; discriminate Hren.
Defined.

Lemma legacy_weights_remapped_witness :
  exists out,
    _filter_fn legacy_checkpoint = Some out
    /\ PyDict.lookup "pre_logits.fc1.weight" out
       = Some (mkTensor [4096 * 25088 / 25088; 512; 7; 7] 3%N)
    /\ PyDict.lookup "pre_logits.fc2.weight" out
       = Some (mkTensor [4096 * 4096 / 4096; 4096; 1; 1] 5%N)
    /\ PyDict.lookup "head.fc.weight" out = Some (mkTensor [1000; 4096] 7%N).
Proof.
  destruct (legacy_weights_remapped legacy_checkpoint legacy_checkpoint_wf
              legacy_checkpoint_reshape_ok) as (out & Hout & H0 & H3 & H6 & _).
  exists out. split; [exact Hout|]. split; [|split].
  - refine (proj1 (H0 (mkTensor [4096; 25088] 3%N) 4096 25088 _ eq_refl _)).
    + unfold legacy_checkpoint. simpl. tauto.
    + eapply legacy_checkpoint_no_clash. unfold legacy_checkpoint. simpl.
      right. right. left. reflexivity.
  - refine (proj1 (H3 (mkTensor [4096; 4096] 5%N) 4096 4096 _ eq_refl _)).
    + unfold legacy_checkpoint. simpl. tauto.
    + eapply legacy_checkpoint_no_clash. unfold legacy_checkpoint. simpl.
      do 4 right. left. reflexivity.
  - refine (H6 (mkTensor [1000; 4096] 7%N) _ _).
    + unfold legacy_checkpoint. simpl. tauto.
    + eapply legacy_checkpoint_no_clash. unfold legacy_checkpoint. simpl.
      do 6 right. left. reflexivity.
Defined.

Lemma plain_keys_pass_through_witness :
  has_legacy "features.0.weight" = false
  /\ has_legacy "features.0.bias" = false
  /\ PyDict.lookup "features.0.bias"
       [("features.0.weight", mkTensor [64; 3; 3; 3] 1%N);
        ("features.0.bias", mkTensor [64] 2%N);
        ("head.fc.bias", mkTensor [1000] 8%N)]
     = Some (mkTensor [64] 2%N)
  /\ _filter_fn [("features.0.weight", mkTensor [64; 3; 3; 3] 1%N);
                 ("features.0.bias", mkTensor [64] 2%N)]
     = Some [("features.0.weight", mkTensor [64; 3; 3; 3] 1%N);
             ("features.0.bias", mkTensor [64] 2%N)].
Proof.
  destruct plain_keys_pass_through as (Hiff & Hentry & Hmap).
  assert (Hw : has_legacy "features.0.weight" = false)
    by (apply (proj1 (Hiff "features.0.weight")); reflexivity).
  assert (Hb : has_legacy "features.0.bias" = false)
    by (apply (proj1 (Hiff "features.0.bias")); reflexivity).
  split; [exact Hw|]. split; [exact Hb|]. split.
  - apply (Hentry [("features.0.weight", mkTensor [64; 3; 3; 3] 1%N);
                   ("features.0.bias", mkTensor [64] 2%N);
                   ("classifier.6.bias", mkTensor [1000] 8%N)]).
    + unfold PyDict.wf. simpl.
      repeat (constructor; [simpl; intuition discriminate|]). constructor.
    + reflexivity.
    + simpl. tauto.
    + exact Hb.
    + intros k' v' H' Hren.
      in_cases H'; try reflexivity; vm_compute in Hren; discriminate Hren.
  - apply Hmap.
    + unfold PyDict.wf. simpl.
      repeat (constructor; [simpl; intuition discriminate|]). constructor.
    + intros k v H. in_cases H; assumption.
Defined.

Lemma filter_twice_iff_no_legacy_left_witness :
  exists out,
    _filter_fn legacy_checkpoint = Some out
    /\ (forall k v, In (k, v) out -> has_legacy k = false)
    /\ _filter_fn out = Some out.
Proof.
  eexists. split; [vm_compute; reflexivity|].
  assert (Hpl : forall k v,
    In (k, v)
      [("features.0.weight", mkTensor [64; 3; 3; 3] 1%N);
       ("features.0.bias", mkTensor [64] 2%N);
       ("pre_logits.fc1.weight", mkTensor [4096; 512; 7; 7] 3%N);
       ("pre_logits.fc1.bias", mkTensor [4096] 4%N);
       ("pre_logits.fc2.weight", mkTensor [4096; 4096; 1; 1] 5%N);
       ("pre_logits.fc2.bias", mkTensor [4096] 6%N);
       ("head.fc.weight", mkTensor [1000; 4096] 7%N);
       ("head.fc.bias", mkTensor [1000] 8%N)] ->
    has_legacy k = false).
  { intros k v H. in_cases H; reflexivity. }
  split; [exact Hpl|].
  apply (proj2 (filter_twice_iff_no_legacy_left legacy_checkpoint _ eq_refl)).
  exact Hpl.
Defined.

(** ** Shapes through the feature stack *)

Lemma features_forward_app tr l1 l2 : forall x,
  features_forward tr (l1 ++ l2) x
  = match features_forward tr l1 x with
    | None => None
    | Some y => features_forward tr l2 y
    end.
Proof.
  induction l1 as [|l l1 IH]; intros x; simpl; [reflexivity|].
  destruct (layer_shape tr l x); [apply IH | reflexivity].
Qed.

Lemma maxpool2d_shape_half n c a b :
  0 < c -> 2 <= a -> 2 <= b ->
  maxpool2d_shape 2 2 [n; c; a; b] = Some [n; c; a / 2; b / 2].
Proof.
  intros Hc Ha Hb. unfold maxpool2d_shape.
  apply Z.ltb_lt in Hc. apply Z.leb_le in Ha, Hb. rewrite Hc, Ha, Hb. simpl.
  replace (a - 2) with (a + (-1) * 2) by lia.
  replace (b - 2) with (b + (-1) * 2) by lia.
  rewrite !Z.div_add by lia. do 4 f_equal; [lia | f_equal; lia].
Qed.

Lemma maxpool2d_shape_small n c a b :
  a < 2 \/ b < 2 -> maxpool2d_shape 2 2 [n; c; a; b] = None.
Proof.
  intros H. unfold maxpool2d_shape.
  destruct (2 <=? a) eqn:Ea; [|now rewrite andb_false_r].
  destruct (2 <=? b) eqn:Eb; [|now rewrite andb_false_r].
  apply Z.leb_le in Ea, Eb. lia.
Qed.

(** A max-pool either raises or halves. *)
Lemma maxpool2d_shape_cases n c a b :
  maxpool2d_shape 2 2 [n; c; a; b] = None
  \/ maxpool2d_shape 2 2 [n; c; a; b] = Some [n; c; a / 2; b / 2].
Proof.
  destruct (Z_lt_dec 0 c) as [Hc|Hc].
  - destruct (Z_le_dec 2 a) as [Ha|Ha]; [destruct (Z_le_dec 2 b) as [Hb|Hb]|].
    + right. now apply maxpool2d_shape_half.
    + left. apply maxpool2d_shape_small. lia.
    + left. apply maxpool2d_shape_small. lia.
  - left. unfold maxpool2d_shape.
    assert (E : (0 <? c) = false) by (apply Z.ltb_ge; lia).
    now rewrite E.
Qed.

Lemma conv3_shape n p c a b :
  0 < p -> 0 < c -> 1 <= a -> 1 <= b ->
  conv2d_shape (mkConv2d p c 3 1 true) [n; p; a; b] = Some [n; c; a; b].
Proof.
  intros Hp Hc Ha Hb. unfold conv2d_shape, conv2d_accepts.
  cbn [in_channels kernel_size padding out_channels].
  rewrite Z.eqb_refl.
  apply Z.ltb_lt in Hp, Hc.
  assert (H1 : (3 <=? a + 2 * 1) = true) by (apply Z.leb_le; lia).
  assert (H2 : (3 <=? b + 2 * 1) = true) by (apply Z.leb_le; lia).
  rewrite Hp, Hc, H1, H2. simpl. do 4 f_equal; [lia | f_equal; lia].
Qed.

(** A 3x3 convolution with padding 1 either raises or keeps the size. *)
Lemma conv3_shape_cases n p c a b :
  conv2d_shape (mkConv2d p c 3 1 true) [n; p; a; b] = None
  \/ conv2d_shape (mkConv2d p c 3 1 true) [n; p; a; b] = Some [n; c; a; b].
Proof.
  unfold conv2d_shape. destruct (conv2d_accepts _ _ _ _); [|now left].
  right. cbn [in_channels kernel_size padding out_channels].
  do 4 f_equal; [lia | f_equal; lia].
Qed.

(** A convolution without output channels raises. *)
Lemma conv2d_shape_empty p k pad b x :
  conv2d_shape (mkConv2d p 0 k pad b) x = None.
Proof.
  unfold conv2d_shape, conv2d_accepts. cbn [out_channels].
  destruct x as [|x1 [|x2 [|x3 [|x4 [|x5 x]]]]]; try reflexivity;
    now rewrite !andb_false_r.
Qed.

Lemma norm_shape_cases tr n c a b :
  norm_shape tr c [n; c; a; b] = None
  \/ norm_shape tr c [n; c; a; b] = Some [n; c; a; b].
Proof. unfold norm_shape. destruct (_ && _); [now right | now left]. Qed.

Lemma norm_shape_ok tr n c a b :
  tr = false \/ n * a * b <> 1 ->
  norm_shape tr c [n; c; a; b] = Some [n; c; a; b].
Proof.
  intros H. unfold norm_shape. rewrite Z.eqb_refl.
  destruct H as [->|H]; [reflexivity|].
  apply Z.eqb_neq in H. rewrite H. now rewrite andb_false_r.
Qed.

Lemma net_stride_mono act norm cfg : forall st,
  0 < net_stride st ->
  net_stride st <= net_stride (build_loop act norm cfg st).
Proof.
  induction cfg as [|v cfg IH]; intros st Hpos; [simpl; lia|].
  rewrite build_loop_cons.
  assert (Hs : 0 < net_stride (build_step act norm st v)
               /\ net_stride st <= net_stride (build_step act norm st v)).
  { destruct v; cbn [build_step net_stride]; lia. }
  specialize (IH (build_step act norm st v)). lia.
Qed.

(** A marker still to come doubles the stride at least once. *)
Lemma net_stride_doubles act norm cfg : forall st,
  0 < net_stride st -> existsb is_marker cfg = true ->
  2 * net_stride st <= net_stride (build_loop act norm cfg st).
Proof.
  induction cfg as [|v cfg IH]; intros st Hpos Hm; [discriminate|].
  rewrite build_loop_cons. destruct v as [|c].
  - pose proof (net_stride_mono act norm cfg (build_step act norm st M)) as Hmono.
    assert (E : net_stride (build_step act norm st M) = net_stride st * 2)
      by reflexivity.
    rewrite E in Hmono. lia.
  - simpl in Hm. specialize (IH (build_step act norm st (Ch c))).
    assert (E : net_stride (build_step act norm st (Ch c)) = net_stride st)
      by reflexivity.
    rewrite E in IH. now apply IH.
Qed.

Lemma firstn_prefix {A} (l l' : list A) k :
  (k <= List.length l)%nat -> firstn k (l ++ l') = firstn k l.
Proof.
  intros Hk. rewrite firstn_app.
  replace (k - List.length l)%nat with O by lia. simpl. apply app_nil_r.
Qed.

Lemma info_holds_app tr ls ls' n c h w fi :
  info_holds tr ls n c h w fi -> info_holds tr (ls ++ ls') n c h w fi.
Proof.
  intros (k & Hm & Hk & Hf). exists k. split; [exact Hm|]. split.
  - rewrite List.length_app. lia.
  - rewrite firstn_prefix by lia. exact Hf.
Qed.

Section Tracking.
Variables (tr : bool) (act : string) (norm : option string) (n in_chans h w : Z).

(** One iteration keeps the output shape of the layers in step with
    [prev_chs] and [net_stride], as long as the widths are positive, the
    stride fits the input and a normalization meets more than one value. *)
Lemma build_step_tracks st v :
  0 < net_stride st -> 0 < prev_chs st -> width_pos v ->
  features_forward tr (layers st) [n; in_chans; h; w]
  = Some [n; prev_chs st; h / net_stride st; w / net_stride st] ->
  net_stride (build_step act norm st v) <= h ->
  net_stride (build_step act norm st v) <= w ->
  (tr = false \/ norm = None \/ v = M
   \/ n * (h / net_stride st) * (w / net_stride st) <> 1) ->
  features_forward tr (layers (build_step act norm st v)) [n; in_chans; h; w]
  = Some [n; prev_chs (build_step act norm st v);
          h / net_stride (build_step act norm st v);
          w / net_stride (build_step act norm st v)]
  /\ 0 < prev_chs (build_step act norm st v).
Proof.
  intros Hpos Hp Hv Htr Hh Hw Hn. destruct v as [|c].
  - cbn [build_step layers prev_chs net_stride] in *. split; [|exact Hp].
    rewrite features_forward_app, Htr. cbn [features_forward layer_shape].
    rewrite maxpool2d_shape_half
      by (assumption || apply Z.div_le_lower_bound; lia).
    now rewrite !Z.div_div by lia.
  - cbn [build_step layers prev_chs net_stride] in *. simpl in Hv.
    split; [|exact Hv].
    assert (H1 : 1 <= h / net_stride st) by (apply Z.div_le_lower_bound; lia).
    assert (H2 : 1 <= w / net_stride st) by (apply Z.div_le_lower_bound; lia).
    destruct norm as [nm|]; rewrite features_forward_app, Htr;
      cbn [features_forward layer_shape]; rewrite conv3_shape by assumption.
    + rewrite norm_shape_ok; [reflexivity|].
      destruct Hn as [?|[?|[?|?]]]; try discriminate; [now left | now right].
    + reflexivity.
Qed.

(** Whatever the widths and the mode, one iteration leaves the layers
    raising, or in step with [prev_chs] and [net_stride]. *)
Lemma build_step_wtracks st v :
  0 < net_stride st ->
  (features_forward tr (layers st) [n; in_chans; h; w] = None
   \/ features_forward tr (layers st) [n; in_chans; h; w]
      = Some [n; prev_chs st; h / net_stride st; w / net_stride st]) ->
  features_forward tr (layers (build_step act norm st v)) [n; in_chans; h; w]
  = None
  \/ features_forward tr (layers (build_step act norm st v)) [n; in_chans; h; w]
     = Some [n; prev_chs (build_step act norm st v);
             h / net_stride (build_step act norm st v);
             w / net_stride (build_step act norm st v)].
Proof.
  intros Hpos [Hf|Hf].
  - left. destruct v as [|c]; cbn [build_step layers];
      [|destruct norm]; now rewrite features_forward_app, Hf.
  - destruct v as [|c]; cbn [build_step layers prev_chs net_stride].
    + rewrite features_forward_app, Hf. cbn [features_forward layer_shape].
      destruct (maxpool2d_shape_cases n (prev_chs st) (h / net_stride st)
                  (w / net_stride st)) as [->| ->]; [now left|].
      right. now rewrite !Z.div_div by lia.
    + destruct norm as [nm|]; rewrite features_forward_app, Hf;
        cbn [features_forward layer_shape];
        destruct (conv3_shape_cases n (prev_chs st) c (h / net_stride st)
                    (w / net_stride st)) as [->| ->]; try (now left).
      * destruct (norm_shape_cases tr n c (h / net_stride st) (w / net_stride st))
          as [->| ->]; [now left | now right].
      * now right.
Qed.

(** Once a layer has raised, the rest of the loop changes nothing. *)
Lemma build_loop_failed cfg st :
  features_forward tr (layers st) [n; in_chans; h; w] = None ->
  features_forward tr (layers (build_loop act norm cfg st)) [n; in_chans; h; w]
  = None.
Proof.
  intros Hf. destruct (build_loop_layers_app act norm cfg st) as [ls ->].
  now rewrite features_forward_app, Hf.
Qed.

(** An input smaller than the final stride makes a max-pool raise, if
    nothing raised before it. *)
Lemma build_loop_too_small cfg : forall st,
  0 < net_stride st -> net_stride st <= h -> net_stride st <= w ->
  (features_forward tr (layers st) [n; in_chans; h; w] = None
   \/ features_forward tr (layers st) [n; in_chans; h; w]
      = Some [n; prev_chs st; h / net_stride st; w / net_stride st]) ->
  h < net_stride (build_loop act norm cfg st)
  \/ w < net_stride (build_loop act norm cfg st) ->
  features_forward tr (layers (build_loop act norm cfg st)) [n; in_chans; h; w]
  = None.
Proof.
  induction cfg as [|v cfg IH]; intros st Hpos Hh Hw Htr Hsmall.
  - simpl in Hsmall. lia.
  - rewrite build_loop_cons in *.
    destruct (Z_le_dec (net_stride (build_step act norm st v)) h) as [Lh|Lh];
      [destruct (Z_le_dec (net_stride (build_step act norm st v)) w) as [Lw|Lw]|].
    + apply IH; try assumption.
      * destruct v; cbn [build_step net_stride]; lia.
      * now apply build_step_wtracks.
    + apply build_loop_failed.
      destruct v as [|c]; cbn [build_step net_stride layers] in *; [|lia].
      rewrite features_forward_app. destruct Htr as [-> | ->]; [reflexivity|].
      cbn [features_forward layer_shape].
      rewrite maxpool2d_shape_small; [reflexivity|].
      right. apply Z.div_lt_upper_bound; lia.
    + apply build_loop_failed.
      destruct v as [|c]; cbn [build_step net_stride layers] in *; [|lia].
      rewrite features_forward_app. destruct Htr as [-> | ->]; [reflexivity|].
      cbn [features_forward layer_shape].
      rewrite maxpool2d_shape_small; [reflexivity|].
      left. apply Z.div_lt_upper_bound; lia.
Qed.

(** The layers raise, or their output has [prev_chs] channels. *)
Lemma build_step_ctracks st v :
  (features_forward tr (layers st) [n; in_chans; h; w] = None
   \/ exists a b, features_forward tr (layers st) [n; in_chans; h; w]
                  = Some [n; prev_chs st; a; b]) ->
  features_forward tr (layers (build_step act norm st v)) [n; in_chans; h; w]
  = None
  \/ exists a b,
       features_forward tr (layers (build_step act norm st v)) [n; in_chans; h; w]
       = Some [n; prev_chs (build_step act norm st v); a; b].
Proof.
  intros [Hf|(a & b & Hf)].
  - left. destruct v as [|c]; cbn [build_step layers];
      [|destruct norm]; now rewrite features_forward_app, Hf.
  - destruct v as [|c]; cbn [build_step layers prev_chs].
    + rewrite features_forward_app, Hf. cbn [features_forward layer_shape].
      destruct (maxpool2d_shape_cases n (prev_chs st) a b) as [->| ->];
        [now left | right; eauto].
    + destruct norm as [nm|]; rewrite features_forward_app, Hf;
        cbn [features_forward layer_shape];
        destruct (conv3_shape_cases n (prev_chs st) c a b) as [->| ->];
        try (now left).
      * destruct (norm_shape_cases tr n c a b) as [->| ->];
          [now left | right; eauto].
      * right; eauto.
Qed.

(** A width of zero makes its convolution raise, if nothing raised before
    it. *)
Lemma build_loop_zero_width cfg : forall st,
  (features_forward tr (layers st) [n; in_chans; h; w] = None
   \/ exists a b, features_forward tr (layers st) [n; in_chans; h; w]
                  = Some [n; prev_chs st; a; b]) ->
  In (Ch 0) cfg ->
  features_forward tr (layers (build_loop act norm cfg st)) [n; in_chans; h; w]
  = None.
Proof.
  induction cfg as [|v cfg IH]; intros st Htr Hin; [contradiction|].
  rewrite build_loop_cons. destruct Hin as [->|Hin].
  - apply build_loop_failed. cbn [build_step layers].
    destruct norm; rewrite features_forward_app;
      (destruct Htr as [-> |(a & b & ->)]; [reflexivity|]);
      cbn [features_forward layer_shape]; now rewrite conv2d_shape_empty.
  - apply IH; [|exact Hin]. now apply build_step_ctracks.
Qed.

(** The loop keeps the output shape in step and every recorded entry true of
    the layers built so far. *)
Lemma build_loop_tracks cfg : forall st,
  0 < net_stride st -> 0 < prev_chs st -> 1 <= n ->
  Forall width_pos cfg -> norm_safe tr norm n cfg ->
  features_forward tr (layers st) [n; in_chans; h; w]
  = Some [n; prev_chs st; h / net_stride st; w / net_stride st] ->
  net_stride (build_loop act norm cfg st) <= h ->
  net_stride (build_loop act norm cfg st) <= w ->
  let st' := build_loop act norm cfg st in
  features_forward tr (layers st') [n; in_chans; h; w]
  = Some [n; prev_chs st'; h / net_stride st'; w / net_stride st']
  /\ (layers st <> [] ->
      Forall (info_holds tr (layers st) n in_chans h w) (st_feature_info st) ->
      Forall (info_holds tr (layers st') n in_chans h w) (st_feature_info st')).
Proof.
  induction cfg as [|v cfg IH]; intros st Hpos Hp Hn Hwd Hsafe Htr Hh Hw; cbv zeta.
  - simpl. now split.
  - rewrite build_loop_cons in *.
    inversion Hwd as [|? ? Hv Hwd']; subst.
    assert (Hpos' : 0 < net_stride (build_step act norm st v))
      by (destruct v; cbn [build_step net_stride]; lia).
    pose proof (net_stride_mono act norm cfg _ Hpos') as Hm.
    assert (Hsafe' : norm_safe tr norm n cfg).
    { destruct Hsafe as [?|[?|[?|Hpa]]];
        [now left | right; now left | right; right; now left|].
      right. right. right. destruct v as [|c]; simpl in Hpa; [exact Hpa|].
      now apply andb_true_iff in Hpa. }
    assert (Hhere : tr = false \/ norm = None \/ v = M
                    \/ n * (h / net_stride st) * (w / net_stride st) <> 1).
    { destruct v as [|c]; [right; right; now left|].
      destruct Hsafe as [?|[?|[Hn2|Hpa]]]; [now left | right; now left | |].
      - right. right. right.
        assert (E : net_stride (build_step act norm st (Ch c)) = net_stride st)
          by reflexivity.
        rewrite E in Hm.
        assert (1 <= h / net_stride st) by (apply Z.div_le_lower_bound; lia).
        assert (1 <= w / net_stride st) by (apply Z.div_le_lower_bound; lia).
        nia.
      - right. right. right. simpl in Hpa. apply andb_true_iff in Hpa.
        destruct Hpa as [Hex _].
        pose proof (net_stride_doubles act norm cfg
                      (build_step act norm st (Ch c)) Hpos' Hex) as Hd.
        assert (E : net_stride (build_step act norm st (Ch c)) = net_stride st)
          by reflexivity.
        rewrite E in Hd.
        assert (2 <= h / net_stride st) by (apply Z.div_le_lower_bound; lia).
        assert (2 <= w / net_stride st) by (apply Z.div_le_lower_bound; lia).
        nia. }
    destruct (build_step_tracks st v Hpos Hp Hv Htr) as [Htr' Hp'];
      try assumption; try lia.
    destruct (IH (build_step act norm st v) Hpos' Hp' Hn Hwd' Hsafe' Htr' Hh Hw)
      as [Hfin Hinfo].
    split; [exact Hfin|].
    intros Hne Hfi. apply Hinfo.
    + destruct v as [|c]; cbn [build_step layers]; [|destruct norm];
        intros E; apply app_eq_nil in E; destruct E as [? E']; discriminate.
    + destruct v as [|c]; cbn [build_step layers st_feature_info].
      * apply Forall_app. split.
        -- eapply Forall_impl; [|exact Hfi]. intros fi. apply info_holds_app.
        -- constructor; [|constructor]. apply info_holds_app.
           exists (Z.of_nat (List.length (layers st)) - 1).
           cbn [module num_chs reduction]. split; [reflexivity|].
           assert (0 < List.length (layers st))%nat
             by (destruct (layers st); [contradiction | simpl; lia]).
           split; [lia|].
           replace (Z.to_nat (Z.of_nat (List.length (layers st)) - 1 + 1))
             with (List.length (layers st)) by lia.
           now rewrite firstn_all.
      * destruct norm; eapply Forall_impl; try exact Hfi;
          intros fi; apply info_holds_app.
Qed.
End Tracking.


(** X1: every entry of [feature_info] is true of the feature stack of a
    model built from a configuration that starts with a channel width.  In
    either mode, with positive widths, a batch of at least one sample, no
    normalization meeting a single value per channel, and on an input no
    smaller than the recorded reductions, each entry names a layer of the
    stack, and the output of that layer has the entry's channel count and
    the input's height and width divided by the entry's reduction. *)
Theorem feature_info_describes_features :
  forall training act norm c0 rest nc in_chans os ratio pool dr m n h w,
    VGG_init act norm (Ch c0 :: rest) nc in_chans os ratio pool dr = Built m ->
    0 < in_chans -> Forall width_pos (Ch c0 :: rest) -> 1 <= n ->
    norm_safe training norm n (Ch c0 :: rest) ->
    (forall fi, In fi (feature_info m) -> reduction fi <= h /\ reduction fi <= w) ->
    Forall (info_holds training (features m) n in_chans h w) (feature_info m).
Proof.
  intros tr act norm c0 rest nc in_chans os ratio pool dr m n h w
    Hb Hc Hwd Hn Hsafe Hfit.
  apply VGG_init_built in Hb. destruct Hb as (_ & Hf & Hfi & _).
  set (cfg := Ch c0 :: rest) in *.
  set (st := build_loop act norm cfg (build_start in_chans)) in *.
  assert (Hlast : In (final_info st) (feature_info m)).
  { rewrite Hfi. apply in_or_app. right. now left. }
  destruct (Hfit _ Hlast) as [Hh Hw]. cbn [final_info reduction] in Hh, Hw.
  set (st1 := build_step act norm (build_start in_chans) (Ch c0)).
  assert (Est : st = build_loop act norm rest st1) by reflexivity.
  assert (Hpos1 : 0 < net_stride st1) by (simpl; lia).
  pose proof (net_stride_mono act norm rest st1 Hpos1) as Hm. rewrite <- Est in Hm.
  inversion Hwd as [|? ? Hv Hwd']; subst.
  assert (Hsafe' : norm_safe tr norm n rest).
  { destruct Hsafe as [?|[?|[?|Hpa]]];
      [now left | right; now left | right; right; now left|].
    right. right. right. simpl in Hpa. now apply andb_true_iff in Hpa. }
  assert (Hs1 : net_stride st1 = 1) by reflexivity.
  assert (Hstep :
    features_forward tr (layers st1) [n; in_chans; h; w]
    = Some [n; prev_chs st1; h / net_stride st1; w / net_stride st1]
    /\ 0 < prev_chs st1).
  { apply build_step_tracks.
    - simpl. lia.
    - exact Hc.
    - exact Hv.
    - simpl. now rewrite !Z.div_1_r.
    - fold st1. lia.
    - fold st1. lia.
    - simpl net_stride. rewrite !Z.div_1_r. rewrite Hs1 in Hm.
      assert (H1h : 1 <= h) by lia. assert (H1w : 1 <= w) by lia.
      destruct Hsafe as [?|[?|[Hn2|Hpa]]]; [now left | right; now left | |].
      + right. right. right. nia.
      + right. right. right. simpl in Hpa. apply andb_true_iff in Hpa.
        destruct Hpa as [Hex _].
        pose proof (net_stride_doubles act norm rest st1 Hpos1 Hex) as Hd.
        rewrite <- Est, Hs1 in Hd.
        assert (H2h : 2 <= h) by lia. assert (H2w : 2 <= w) by lia. nia. }
  destruct Hstep as [Htr1 Hp1].
  destruct (build_loop_tracks tr act norm n in_chans h w rest st1)
    as [Htr Hall]; try assumption; try (rewrite <- Est; assumption).
  rewrite <- Est in Htr, Hall.
  assert (Hne : layers st1 <> []) by (simpl; destruct norm; discriminate).
  specialize (Hall Hne (Forall_nil _)).
  rewrite Hf, Hfi. apply Forall_app. split; [exact Hall|].
  constructor; [|constructor].
  exists (Z.of_nat (List.length (layers st)) - 1).
  cbn [final_info module num_chs reduction]. split; [reflexivity|].
  assert (0 < List.length (layers st))%nat.
  { destruct (build_loop_layers_app act norm rest st1) as [ls Hls].
    rewrite <- Est in Hls. rewrite Hls, List.length_app.
    destruct (layers st1); [contradiction | simpl; lia]. }
  split; [lia|].
  replace (Z.to_nat (Z.of_nat (List.length (layers st)) - 1 + 1))
    with (List.length (layers st)) by lia.
  now rewrite firstn_all.
Qed.

Lemma feature_info_describes_features_witness :
  exists m,
    VGG_init "ReLU" (Some "BatchNorm2d") [Ch 64; M; Ch 128; M] 1000 3 32
      (PyNum.dyadic 1 0) "avg" (S754_zero false) = Built m
    /\ Forall (info_holds true (features m) 1 3 8 8) (feature_info m).
Proof.
  eexists. split; [vm_compute; reflexivity|].
  apply (feature_info_describes_features true "ReLU" (Some "BatchNorm2d")
           64 [M; Ch 128; M] 1000 3 32 (PyNum.dyadic 1 0) "avg"
           (S754_zero false) _ 1 8 8 eq_refl).
  - lia.
  - repeat constructor; simpl; lia.
  - lia.
  - right. right. right. reflexivity.
  - intros fi Hin. simpl in Hin.
    destruct Hin as [<-|[<-|[<-|[]]]]; simpl; lia.
Defined.

(** X2: [forward_features] of a built model, in either mode, on an input
    [n, in_chans, h, w] with [h, w >= 1], [r] being the stride the loop
    ended with.  It raises when [h] or [w] is below [r] (a max-pool meets a
    map smaller than its window, if nothing raised before), and when the
    configuration has a width of 0.  It returns [n, num_features, h / r,
    w / r] when [r] is at most [h] and [w], the batch has a sample, the
    widths are positive and no normalization meets a single value per
    channel. *)
Theorem forward_features_shape :
  forall training act norm cfg nc in_chans os ratio pool dr m n h w,
    VGG_init act norm cfg nc in_chans os ratio pool dr = Built m ->
    1 <= h -> 1 <= w ->
    let r := net_stride (build_loop act norm cfg (build_start in_chans)) in
    (h < r \/ w < r -> forward_features training m [n; in_chans; h; w] = None)
    /\ (In (Ch 0) cfg -> forward_features training m [n; in_chans; h; w] = None)
    /\ (r <= h -> r <= w -> 1 <= n -> 0 < in_chans -> Forall width_pos cfg ->
        norm_safe training norm n cfg ->
        forward_features training m [n; in_chans; h; w]
        = Some [n; num_features m; h / r; w / r]).
Proof.
  intros tr act norm cfg nc in_chans os ratio pool dr m n h w Hb Hh Hw.
  apply VGG_init_built in Hb. destruct Hb as (_ & Hf & _ & Hnf & _).
  cbv zeta. unfold forward_features. rewrite Hf, Hnf.
  assert (Hstart :
    features_forward tr (layers (build_start in_chans)) [n; in_chans; h; w]
    = Some [n; prev_chs (build_start in_chans);
            h / net_stride (build_start in_chans);
            w / net_stride (build_start in_chans)])
    by (simpl; now rewrite !Z.div_1_r).
  split; [|split].
  - intros Hsmall. apply build_loop_too_small; try assumption.
    + simpl. lia.
    + now right.
  - intros Hz. apply build_loop_zero_width; [|exact Hz]. right. eauto.
  - intros Hrh Hrw Hn Hc Hwd Hsafe.
    apply (build_loop_tracks tr act norm n in_chans h w cfg (build_start in_chans));
      try assumption.
    simpl. lia.
Qed.

Lemma forward_features_shape_witness :
  exists m,
    VGG_init "ReLU" (Some "BatchNorm2d") [Ch 64; M; Ch 128; M] 1000 3 32
      (PyNum.dyadic 1 0) "avg" (S754_zero false) = Built m
    /\ forward_features true m [2; 3; 9; 3] = None
    /\ forward_features true m [2; 3; 9; 10] = Some [2; 128; 2; 2].
Proof.
  eexists. split; [vm_compute; reflexivity|].
  destruct (forward_features_shape true "ReLU" (Some "BatchNorm2d")
              [Ch 64; M; Ch 128; M] 1000 3 32
              (PyNum.dyadic 1 0) "avg" (S754_zero false) _ 2 9 3 eq_refl
              ltac:(lia) ltac:(lia)) as (Hsmall & _ & _).
  destruct (forward_features_shape true "ReLU" (Some "BatchNorm2d")
              [Ch 64; M; Ch 128; M] 1000 3 32
              (PyNum.dyadic 1 0) "avg" (S754_zero false) _ 2 9 10 eq_refl
              ltac:(lia) ltac:(lia)) as (_ & _ & Hok).
  split.
  - apply Hsmall. simpl. lia.
  - apply Hok; simpl; try lia.
    + repeat constructor; simpl; lia.
    + right. right. left. lia.
Defined.

(** ** The head adapter on every input *)


Lemma shape_last_two batch c h w :
  shape_m2 (batch ++ [c; h; w]) = Some h /\ shape_m1 (batch ++ [c; h; w]) = Some w.
Proof.
  unfold shape_m2, shape_m1. rewrite rev_app_distr. now split.
Qed.

Lemma conv2d_accepts_mismatch c ch h w :
  ch <> in_channels c -> conv2d_accepts c ch h w = false.
Proof.
  intros H. unfold conv2d_accepts. apply Z.eqb_neq in H. now rewrite H.
Qed.




(** X4: the head adapter raises on a map whose channel count is not its
    [in_features], and on an input that is neither 3-D nor 4-D. *)
Theorem convmlp_forward_rejects :
  forall in_f out_f k ratio dr act m,
    ConvMlp_init in_f out_f k ratio dr act = Ok m ->
    (forall batch c h w,
        (List.length batch <= 1)%nat -> c <> in_f ->
        ConvMlp_forward m (batch ++ [c; h; w]) = None)
    /\ (forall x,
           List.length x <> 3%nat -> List.length x <> 4%nat ->
           ConvMlp_forward m x = None).
Proof.
  intros in_f out_f k ratio dr act m Hinit.
  apply ConvMlp_init_inv in Hinit.
  destruct Hinit as (mid & _ & _ & _ & _ & _ & _ & ->). split.
  - intros batch c h w Hb Hc. unfold ConvMlp_forward, ConvMlp_pre_pool.
    destruct (shape_last_two batch c h w) as [-> ->].
    cbn [input_kernel_size fc1 fc2].
    destruct ((h <? k) || (w <? k)).
    + destruct batch as [|n [|n' batch]]; simpl in Hb; try lia;
        cbn [app adaptive_avg_pool2d_shape fst snd];
        destruct ((0 <? c) && (0 <? h) && (0 <? w)); try reflexivity;
        cbn [conv2d_shape]; now rewrite conv2d_accepts_mismatch.
    + destruct batch as [|n [|n' batch]]; simpl in Hb; try lia;
        cbn [app conv2d_shape]; now rewrite conv2d_accepts_mismatch.
  - intros x H3 H4. unfold ConvMlp_forward, ConvMlp_pre_pool.
    destruct (shape_m2 x) as [h|]; [|reflexivity].
    destruct (shape_m1 x) as [w|]; [|reflexivity].
    cbn [input_kernel_size].
    destruct x as [|a [|b [|c [|d [|e x]]]]]; simpl in H3, H4; try lia;
      destruct ((h <? k) || (w <? k)); reflexivity.
Qed.

Lemma convmlp_forward_rejects_witness :
  ConvMlp_forward
    (mkConvMlp 7 (mkConv2d 512 4096 7 0 true) (Act "ReLU" true)
       (S754_zero false) (mkConv2d 4096 4096 1 0 true) (Act "ReLU" true))
    ([8] ++ [256; 7; 7]) = None
  /\ ConvMlp_forward
       (mkConvMlp 7 (mkConv2d 512 4096 7 0 true) (Act "ReLU" true)
          (S754_zero false) (mkConv2d 4096 4096 1 0 true) (Act "ReLU" true))
       [512; 49] = None.
Proof.
  destruct (convmlp_forward_rejects 512 4096 7 (PyNum.dyadic 1 0)
              (S754_zero false) "ReLU" _ eq_refl) as [Hc Hr].
  split.
  - apply Hc; simpl; lia.
  - apply Hr; simpl; lia.
Defined.

(** ** The whole forward pass of the four variants *)



(** ** What the loop records and builds, for every configuration *)

Section LoopInvariants.
Variables (act : string) (norm : option string).

Lemma build_loop_reductions cfg : forall st,
  net_stride st = 2 ^ Z.of_nat (List.length (st_feature_info st)) ->
  (forall i fi, nth_error (st_feature_info st) i = Some fi ->
                reduction fi = 2 ^ Z.of_nat i) ->
  let st' := build_loop act norm cfg st in
  net_stride st' = 2 ^ Z.of_nat (List.length (st_feature_info st'))
  /\ (forall i fi, nth_error (st_feature_info st') i = Some fi ->
                   reduction fi = 2 ^ Z.of_nat i)
  /\ List.length (st_feature_info st')
     = (List.length (st_feature_info st) + List.length (filter is_marker cfg))%nat.
Proof.
  induction cfg as [|v cfg IH]; intros st Hs Hr; cbv zeta.
  - simpl. repeat split; auto.
  - rewrite build_loop_cons.
    destruct v as [|c].
    + destruct (IH (build_step act norm st M)) as (H1 & H2 & H3).
      * cbn [build_step net_stride st_feature_info].
        rewrite List.length_app. cbn [List.length].
        rewrite Nat2Z.inj_add, Z.pow_add_r, Hs by lia. reflexivity.
      * cbn [build_step st_feature_info]. intros i fi Hi.
        destruct (Nat.lt_ge_cases i (List.length (st_feature_info st))) as [Hlt|Hge].
        -- rewrite nth_error_app1 in Hi by assumption. now apply Hr.
        -- rewrite nth_error_app2 in Hi by assumption.
           destruct (i - List.length (st_feature_info st))%nat as [|j] eqn:E.
           ++ simpl in Hi. injection Hi as <-. cbn [reduction].
              replace i with (List.length (st_feature_info st)) by lia. exact Hs.
           ++ destruct j; discriminate Hi.
      * split; [exact H1|]. split; [exact H2|].
        rewrite H3. cbn [build_step st_feature_info filter is_marker].
        rewrite List.length_app. cbn [List.length]. lia.
    + destruct (IH (build_step act norm st (Ch c))) as (H1 & H2 & H3);
        try assumption.
      split; [exact H1|]. split; [exact H2|]. rewrite H3. reflexivity.
Qed.

Lemma chain_width_app l1 l2 : forall c,
  chain_width c (l1 ++ l2)
  = match chain_width c l1 with
    | None => None
    | Some c' => chain_width c' l2
    end.
Proof.
  induction l1 as [|l l1 IH]; intros c; [reflexivity|].
  destruct l as [cv|nm nf|a i|k s']; cbn [app chain_width].
  - destruct (in_channels cv =? c); [apply IH | reflexivity].
  - destruct (nf =? c); [apply IH | reflexivity].
  - apply IH.
  - apply IH.
Qed.

Lemma build_loop_chain c0 cfg : forall st,
  chain_width c0 (layers st) = Some (prev_chs st) ->
  chain_width c0 (layers (build_loop act norm cfg st))
  = Some (prev_chs (build_loop act norm cfg st)).
Proof.
  induction cfg as [|v cfg IH]; intros st Hc; [exact Hc|].
  rewrite build_loop_cons. apply IH.
  destruct v as [|c]; cbn [build_step layers prev_chs].
  - now rewrite chain_width_app, Hc.
  - destruct norm; rewrite chain_width_app, Hc; cbn [chain_width in_channels out_channels];
      now rewrite !Z.eqb_refl.
Qed.

Lemma count_layers_app p l1 l2 :
  count_layers p (l1 ++ l2) = (count_layers p l1 + count_layers p l2)%nat.
Proof. unfold count_layers. now rewrite filter_app, List.length_app. Qed.

Lemma build_loop_counts cfg : forall st,
  let st' := build_loop act norm cfg st in
  let widths := List.length (filter is_width cfg) in
  let markers := List.length (filter is_marker cfg) in
  count_layers is_conv (layers st') = (count_layers is_conv (layers st) + widths)%nat
  /\ count_layers is_act (layers st') = (count_layers is_act (layers st) + widths)%nat
  /\ count_layers is_pool (layers st') = (count_layers is_pool (layers st) + markers)%nat
  /\ count_layers is_norm (layers st')
     = (count_layers is_norm (layers st)
        + match norm with Some _ => widths | None => 0 end)%nat.
Proof.
  induction cfg as [|v cfg IH]; intros st; cbv zeta.
  - simpl. destruct norm; repeat split; lia.
  - rewrite build_loop_cons.
    destruct (IH (build_step act norm st v)) as (H1 & H2 & H3 & H4).
    rewrite H1, H2, H3, H4.
    destruct v as [|c]; cbn [build_step layers filter is_width is_marker negb].
    + rewrite !count_layers_app. cbn. destruct norm; repeat split; lia.
    + destruct norm; rewrite !count_layers_app; cbn; repeat split; lia.
Qed.
End LoopInvariants.

(** X6: for every configuration, a built model has one stage entry per
    marker and one more, and the reduction of the entry at position [i] is
    [2^i]. *)
Theorem feature_info_reductions :
  forall act norm cfg nc in_chans os ratio pool dr m,
    VGG_init act norm cfg nc in_chans os ratio pool dr = Built m ->
    List.length (feature_info m) = S (List.length (filter is_marker cfg))
    /\ forall i fi, nth_error (feature_info m) i = Some fi ->
                    reduction fi = 2 ^ Z.of_nat i.
Proof.
  intros act norm cfg nc in_chans os ratio pool dr m Hb.
  apply VGG_init_built in Hb. destruct Hb as (_ & _ & Hfi & _).
  destruct (build_loop_reductions act norm cfg (build_start in_chans))
    as (Hs & Hr & Hl).
  - reflexivity.
  - intros i fi Hi. destruct i; discriminate Hi.
  - rewrite Hfi, List.length_app, Hl. cbn [List.length build_start st_feature_info].
    split; [lia|].
    intros i fi Hi.
    set (st := build_loop act norm cfg (build_start in_chans)) in *.
    destruct (Nat.lt_ge_cases i (List.length (st_feature_info st))) as [Hlt|Hge].
    + rewrite nth_error_app1 in Hi by assumption. now apply Hr.
    + rewrite nth_error_app2 in Hi by assumption.
      destruct (i - List.length (st_feature_info st))%nat as [|j] eqn:E.
      * simpl in Hi. injection Hi as <-. cbn [final_info reduction].
        replace i with (List.length (st_feature_info st)) by lia. exact Hs.
      * destruct j; discriminate Hi.
Qed.

Lemma feature_info_reductions_witness :
  exists m,
    VGG_init "ReLU" None [Ch 64; M; Ch 128; M] 1000 3 32 (PyNum.dyadic 1 0)
      "avg" (S754_zero false) = Built m
    /\ List.length (feature_info m) = 3%nat.
Proof.
  eexists. split; [vm_compute; reflexivity|].
  exact (proj1 (feature_info_reductions "ReLU" None [Ch 64; M; Ch 128; M]
                  1000 3 32 (PyNum.dyadic 1 0) "avg" (S754_zero false) _ eq_refl)).
Defined.

(** X7: for every configuration, the built model is wired through: every
    convolution and normalization of the feature stack takes the width the
    layers before it produce, starting from [in_chans]; the stack ends with
    [num_features], which the first convolution of the head adapter takes;
    its second convolution takes what the first produces and produces
    [head_hidden_size] = 4096 channels, the input width of the head. *)
Theorem model_is_wired_through :
  forall act norm cfg nc in_chans os ratio pool dr m,
    VGG_init act norm cfg nc in_chans os ratio pool dr = Built m ->
    chain_width in_chans (features m) = Some (num_features m)
    /\ in_channels (fc1 (pre_logits m)) = num_features m
    /\ in_channels (fc2 (pre_logits m)) = out_channels (fc1 (pre_logits m))
    /\ out_channels (fc2 (pre_logits m)) = head_hidden_size m
    /\ head_hidden_size m = 4096
    /\ head_in_features (head m) = head_hidden_size m.
Proof.
  intros act norm cfg nc in_chans os ratio pool dr m Hb.
  pose proof (VGG_init_built _ _ _ _ _ _ _ _ _ _ Hb) as (_ & Hf & _ & Hnf & _ & Hpl).
  pose proof (VGG_init_built_head _ _ _ _ _ _ _ _ _ _ Hb) as (Hhs & Hhd & _).
  cbv zeta in Hf, Hnf, Hpl. split.
  - rewrite Hf, Hnf. now apply build_loop_chain.
  - apply ConvMlp_init_inv in Hpl.
    destruct Hpl as (mid & _ & _ & _ & _ & _ & _ & Hpl).
    rewrite Hpl, Hnf, Hhs, Hhd. cbn. repeat split.
Qed.

Lemma model_is_wired_through_witness :
  exists m,
    VGG_init "ReLU" (Some "BatchNorm2d") [Ch 64; M; Ch 128; M] 1000 3 32
      (PyNum.dyadic 3 (-1)) "avg" (S754_zero false) = Built m
    /\ chain_width 3 (features m) = Some (num_features m).
Proof.
  eexists. split; [vm_compute; reflexivity|].
  exact (proj1 (model_is_wired_through "ReLU" (Some "BatchNorm2d")
                  [Ch 64; M; Ch 128; M] 1000 3 32 (PyNum.dyadic 3 (-1)) "avg"
                  (S754_zero false) _ eq_refl)).
Defined.

(** X8: for every configuration, the feature stack of a built model has one
    convolution and one activation per channel width, one max-pool per
    marker, and one normalization per channel width when a normalization
    layer is configured and none otherwise. *)
Theorem feature_stack_counts :
  forall act norm cfg nc in_chans os ratio pool dr m,
    VGG_init act norm cfg nc in_chans os ratio pool dr = Built m ->
    let widths := List.length (filter is_width cfg) in
    let markers := List.length (filter is_marker cfg) in
    count_layers is_conv (features m) = widths
    /\ count_layers is_act (features m) = widths
    /\ count_layers is_pool (features m) = markers
    /\ count_layers is_norm (features m) = (if use_norm m then widths else 0%nat)
    /\ List.length (features m)
       = ((if use_norm m then 3 else 2) * widths + markers)%nat.
Proof.
  intros act norm cfg nc in_chans os ratio pool dr m Hb. cbv zeta.
  pose proof (VGG_init_built _ _ _ _ _ _ _ _ _ _ Hb) as (_ & Hf & _).
  pose proof (VGG_init_built_head _ _ _ _ _ _ _ _ _ _ Hb) as (_ & _ & Hun).
  destruct (build_loop_counts act norm cfg (build_start in_chans))
    as (H1 & H2 & H3 & H4).
  cbv zeta in Hf. rewrite Hf, Hun, H1, H2, H3, H4.
  cbn [build_start layers count_layers filter List.length Nat.add].
  repeat (split; [destruct norm; reflexivity|]).
  set (ls := layers (build_loop act norm cfg (build_start in_chans))) in *.
  assert (Hsum : List.length ls
                 = (count_layers is_conv ls + count_layers is_norm ls
                    + count_layers is_act ls + count_layers is_pool ls)%nat).
  { unfold count_layers. clear. induction ls as [|l ls IH]; [reflexivity|].
    destruct l; cbn [filter is_conv is_norm is_act is_pool List.length]; lia. }
  rewrite Hsum, H1, H2, H3, H4.
  cbn [build_start layers count_layers filter List.length Nat.add].
  destruct norm; lia.
Qed.

Lemma feature_stack_counts_witness :
  exists m,
    VGG_init "ReLU" (Some "BatchNorm2d") [Ch 64; M; Ch 128; M] 1000 3 32
      (PyNum.dyadic 1 0) "avg" (S754_zero false) = Built m
    /\ count_layers is_conv (features m) = 2%nat.
Proof.
  eexists. split; [vm_compute; reflexivity|].
  exact (proj1 (feature_stack_counts "ReLU" (Some "BatchNorm2d")
                  [Ch 64; M; Ch 128; M] 1000 3 32 (PyNum.dyadic 1 0) "avg"
                  (S754_zero false) _ eq_refl)).
Defined.

(** ** The checkpoint filter on every map *)

Section FilterMore.
Import PyDict PyDictFacts.

Lemma reshape_infer_inv dims t t' :
  reshape_infer dims t = Some t' -> numel t mod fold_right Z.mul 1 dims = 0.
Proof.
  unfold reshape_infer.
  destruct (fold_right Z.mul 1 dims =? 0); [discriminate|].
  destruct (numel t mod fold_right Z.mul 1 dims =? 0) eqn:E; [|discriminate].
  intros _. now apply Z.eqb_eq.
Qed.

(** What a value that came through has kept. *)
Lemma remap_value_inv k v v' :
  remap_value k v = Some v' ->
  reshape_ok k v /\ elements v' = elements v /\ numel v' = numel v.
Proof.
  unfold remap_value, reshape_ok. intros H.
  destruct (PyStr.contains "classifier.0.weight" k).
  - destruct (reshape_infer [512; 7; 7] v) as [v1|] eqn:E1; [|discriminate].
    pose proof (reshape_infer_inv _ _ _ E1) as M1.
    apply numel_reshape in E1. destruct E1 as [N1 S1].
    destruct (PyStr.contains "classifier.3.weight" k).
    + pose proof (reshape_infer_inv _ _ _ H) as M3.
      apply numel_reshape in H. destruct H as [N3 S3].
      rewrite N1 in M3. repeat split; auto; congruence.
    + injection H as <-. repeat split; auto; discriminate.
  - destruct (PyStr.contains "classifier.3.weight" k).
    + pose proof (reshape_infer_inv _ _ _ H) as M3.
      apply numel_reshape in H. destruct H as [N3 S3].
      repeat split; auto; discriminate.
    + injection H as <-. repeat split; auto; discriminate.
Qed.

Lemma In_set {V} (x k : string) (y v : V) d :
  In (x, y) (set k v d) -> (x = k /\ y = v) \/ In (x, y) d.
Proof.
  induction d as [|[k' v'] d IH]; simpl.
  - intros [H|[]]. injection H as <- <-. now left.
  - destruct (String.eqb k k') eqn:E; simpl.
    + apply String.eqb_eq in E. subst k'.
      intros [H|H]; [injection H as <- <-; now left | right; now right].
    + intros [H|H]; [right; now left|].
      destruct (IH H) as [?|?]; [now left | right; now right].
Qed.

Lemma In_keys_set {V} (x k : string) (v : V) d :
  In x (keys (set k v d)) <-> x = k \/ In x (keys d).
Proof.
  destruct (keys_set k v d) as (tail & Ht & _ & Hpres & Hfresh). rewrite Ht.
  rewrite in_app_iff.
  destruct (in_dec string_dec k (keys d)) as [Hin|Hout].
  - rewrite (Hpres Hin). simpl. split; [tauto|].
    intros [->|H]; [now left | now left].
  - rewrite (Hfresh Hout). simpl. split; [intros [H|[->|[]]]; tauto|].
    intros [->|H]; [right; now left | now left].
Qed.

Lemma filter_loop_each_ok : forall items acc out,
  filter_loop items acc = Some out ->
  forall k v, In (k, v) items -> reshape_ok k v.
Proof.
  induction items as [|[k0 v0] rest IH]; intros acc out H k v Hin; [contradiction|].
  simpl in H. destruct (remap_value k0 v0) as [v0'|] eqn:Hv; [|discriminate].
  destruct Hin as [Heq|Hin].
  - injection Heq as <- <-. now apply remap_value_inv in Hv.
  - eapply IH; eassumption.
Qed.

Lemma filter_loop_lookup kr : forall items acc out,
  filter_loop items acc = Some out ->
  lookup kr out
  = match last_renamed kr items with
    | Some (k, v) => remap_value k v
    | None => lookup kr acc
    end.
Proof.
  induction items as [|[k0 v0] rest IH]; intros acc out H; simpl in H.
  - now injection H as <-.
  - destruct (remap_value k0 v0) as [v0'|] eqn:Hv; [|discriminate].
    rewrite (IH _ _ H). cbn [last_renamed].
    destruct (last_renamed kr rest) as [[k v]|]; [reflexivity|].
    destruct (String.eqb (rename_key k0) kr) eqn:E.
    + apply String.eqb_eq in E. subst kr. rewrite Hv. apply lookup_set_same.
    + apply String.eqb_neq in E. apply lookup_set_other. congruence.
Qed.

Lemma filter_loop_key_set kr : forall items acc out,
  filter_loop items acc = Some out ->
  (In kr (keys out)
   <-> In kr (keys acc) \/ exists k v, In (k, v) items /\ rename_key k = kr).
Proof.
  induction items as [|[k0 v0] rest IH]; intros acc out H; simpl in H.
  - injection H as <-. split; [tauto|]. intros [?|(k & v & [] & _)]. assumption.
  - destruct (remap_value k0 v0) as [v0'|]; [|discriminate].
    rewrite (IH _ _ H), In_keys_set. split.
    + intros [[->|Hacc]|(k & v & Hin & Hr)].
      * right. exists k0, v0. split; [now left | reflexivity].
      * now left.
      * right. exists k, v. split; [now right | assumption].
    + intros [Hacc|(k & v & [Heq|Hin] & Hr)].
      * left. now right.
      * injection Heq as <- <-. left. left. now symmetry.
      * right. now exists k, v.
Qed.

Lemma filter_loop_source kr t' : forall items acc out,
  filter_loop items acc = Some out ->
  In (kr, t') out ->
  In (kr, t') acc
  \/ exists k t, In (k, t) items /\ rename_key k = kr /\ remap_value k t = Some t'.
Proof.
  induction items as [|[k0 v0] rest IH]; intros acc out H Hin; simpl in H.
  - injection H as <-. now left.
  - destruct (remap_value k0 v0) as [v0'|] eqn:Hv; [|discriminate].
    destruct (IH _ _ H Hin) as [Hacc|(k & t & Hk & Hr & Hm)].
    + apply In_set in Hacc. destruct Hacc as [[-> ->]|Hacc]; [|now left].
      right. exists k0, v0. split; [now left|]. now split.
    + right. exists k, t. split; [now right|]. now split.
Qed.
End FilterMore.

(** X9: the filter returns exactly when no [reshape] raises: every tensor
    whose key contains [classifier.0.weight] has a multiple of 25088
    elements, and every tensor whose key contains [classifier.3.weight] a
    multiple of 4096. *)
Theorem filter_fn_returns_iff :
  forall d,
    (exists out, _filter_fn d = Some out)
    <-> (forall k v, In (k, v) d -> reshape_ok k v).
Proof.
  intros d. split.
  - intros [out Hout] k v Hin. eapply filter_loop_each_ok; eassumption.
  - intros Hok. now apply filter_loop_total.
Qed.

(** X10: the value the output holds under a key is the remapped value of
    the last input entry renamed to that key, and the output has no such
    key when no entry is renamed to it: of two entries renamed to the same
    key, the later one stays. *)
Theorem filter_fn_last_writer :
  forall d out kr,
    _filter_fn d = Some out ->
    PyDict.lookup kr out
    = match last_renamed kr d with
      | Some (k, v) => remap_value k v
      | None => None
      end.
Proof.
  intros d out kr Hout. unfold _filter_fn in Hout.
  now rewrite (filter_loop_lookup kr _ _ _ Hout).
Qed.

Lemma filter_fn_last_writer_witness :
  PyDict.lookup "pre_logits.fc1.bias"
    [("pre_logits.fc1.bias", mkTensor [4096] 2%N)]
  = Some (mkTensor [4096] 2%N).
Proof.
  exact (filter_fn_last_writer
           [("pre_logits.fc1.bias", mkTensor [4096] 1%N);
            ("classifier.0.bias", mkTensor [4096] 2%N)]
           [("pre_logits.fc1.bias", mkTensor [4096] 2%N)]
           "pre_logits.fc1.bias" eq_refl).
Defined.

(** X11: the output of the filter is a dictionary without repeated keys; its
    keys are exactly the renamed keys of the input; and it has no more
    entries than the input. *)
Theorem filter_fn_keys :
  forall d out,
    _filter_fn d = Some out ->
    PyDict.wf out
    /\ (forall kr, In kr (PyDict.keys out)
                   <-> exists k v, In (k, v) d /\ rename_key k = kr)
    /\ (List.length out <= List.length d)%nat.
Proof.
  intros d out Hout. unfold _filter_fn in Hout. split; [|split].
  - eapply filter_loop_wf; [|exact Hout]. constructor.
  - intros kr. rewrite (filter_loop_key_set kr _ _ _ Hout). simpl. tauto.
  - destruct (filter_loop_keys _ _ _ Hout) as (tail & Ht & Hl).
    simpl in Ht. apply (f_equal (@List.length string)) in Ht.
    unfold PyDict.keys in Ht. rewrite length_map in Ht. lia.
Qed.

Lemma filter_fn_keys_witness :
  exists out,
    _filter_fn legacy_checkpoint = Some out
    /\ PyDict.wf out
    /\ (List.length out <= List.length legacy_checkpoint)%nat.
Proof.
  eexists. split; [vm_compute; reflexivity|].
  destruct (filter_fn_keys legacy_checkpoint _ eq_refl) as (Hwf & _ & Hlen).
  split; [exact Hwf | exact Hlen].
Defined.

(** X12: every tensor of the output is the remapped value of an input entry
    renamed to its key; it holds that entry's elements, in the same order,
    and so has as many: the filter invents no tensor, and a reshape neither
    changes nor reorders the elements. *)
Theorem filter_fn_source :
  forall d out kr t',
    _filter_fn d = Some out ->
    In (kr, t') out ->
    exists k t,
      In (k, t) d /\ rename_key k = kr /\ remap_value k t = Some t'
      /\ elements t' = elements t /\ numel t' = numel t.
Proof.
  intros d out kr t' Hout Hin. unfold _filter_fn in Hout.
  destruct (filter_loop_source kr t' _ _ _ Hout Hin) as [[]|(k & t & Hk & Hr & Hm)].
  exists k, t. destruct (remap_value_inv _ _ _ Hm) as (_ & Hs & Hn).
  repeat split; assumption.
Qed.

Lemma filter_fn_source_witness :
  exists k t,
    In (k, t) legacy_checkpoint
    /\ rename_key k = "pre_logits.fc1.weight"
    /\ remap_value k t = Some (mkTensor [4096; 512; 7; 7] 3%N)
    /\ elements (mkTensor [4096; 512; 7; 7] 3%N) = elements t
    /\ numel (mkTensor [4096; 512; 7; 7] 3%N) = numel t.
Proof.
  refine (filter_fn_source legacy_checkpoint _ "pre_logits.fc1.weight"
            (mkTensor [4096; 512; 7; 7] 3%N) eq_refl _).
  vm_compute. tauto.
Defined.

(** ** Looking up a variant's configuration *)

Lemma count_cons_zero a c s :
  PyStr.count a (String c s) = O -> Ascii.eqb c a = false /\ PyStr.count a s = O.
Proof.
  cbn [PyStr.count]. rewrite (Ascii.eqb_sym c a).
  destruct (Ascii.eqb a c); [discriminate|]. intros H. now split.
Qed.

Lemma split_head_suffix base sfx :
  PyStr.count "_" base = O ->
  split_head "_" (base ++ String "_" sfx) = base.
Proof.
  induction base as [|c base IH]; intros H; [reflexivity|].
  apply count_cons_zero in H. destruct H as [E H].
  cbn [append split_head]. rewrite E. f_equal. now apply IH.
Qed.

Lemma split_head_plain base :
  PyStr.count "_" base = O -> split_head "_" base = base.
Proof.
  induction base as [|c base IH]; intros H; [reflexivity|].
  apply count_cons_zero in H. destruct H as [E H].
  cbn [split_head]. rewrite E. f_equal. now apply IH.
Qed.

(** X13: the configuration of a variant is looked up under the text before
    its first underscore, so a name and the name with a suffix such as
    [_bn] get the same configuration; the lookup returns an entry of the
    table, and fails exactly when that text is none of vgg11, vgg13, vgg16
    and vgg19. *)
Theorem model_cfg_lookup :
  (forall base sfx,
      PyStr.count "_" base = O ->
      model_cfg (base ++ String "_" sfx) = model_cfg base)
  /\ (forall variant cfg,
         model_cfg variant = Some cfg -> In (split_head "_" variant, cfg) cfgs)
  /\ (forall variant,
         model_cfg variant = None
         <-> ~ In (split_head "_" variant) ["vgg11"; "vgg13"; "vgg16"; "vgg19"]).
Proof.
  split; [|split].
  - intros base sfx H. unfold model_cfg.
    now rewrite split_head_suffix, split_head_plain.
  - intros variant cfg. unfold model_cfg.
    generalize (split_head "_" variant). intros name. unfold cfgs, cfgs_get.
    destruct (String.eqb_spec name "vgg11") as [->|_];
      [intros H; injection H as <-; simpl; tauto|].
    destruct (String.eqb_spec name "vgg13") as [->|_];
      [intros H; injection H as <-; simpl; tauto|].
    destruct (String.eqb_spec name "vgg16") as [->|_];
      [intros H; injection H as <-; simpl; tauto|].
    destruct (String.eqb_spec name "vgg19") as [->|_];
      [intros H; injection H as <-; simpl; tauto|].
    discriminate.
  - intros variant. unfold model_cfg.
    generalize (split_head "_" variant). intros name. unfold cfgs, cfgs_get.
    destruct (String.eqb_spec name "vgg11") as [->|N1];
      [split; [discriminate | intros H; exfalso; apply H; simpl; tauto]|].
    destruct (String.eqb_spec name "vgg13") as [->|N2];
      [split; [discriminate | intros H; exfalso; apply H; simpl; tauto]|].
    destruct (String.eqb_spec name "vgg16") as [->|N3];
      [split; [discriminate | intros H; exfalso; apply H; simpl; tauto]|].
    destruct (String.eqb_spec name "vgg19") as [->|N4];
      [split; [discriminate | intros H; exfalso; apply H; simpl; tauto]|].
    split; [|reflexivity]. intros _ [H|[H|[H|[H|[]]]]]; congruence.
Qed.

Lemma model_cfg_lookup_witness :
  PyStr.count "_" "vgg19" = O
  /\ model_cfg ("vgg19" ++ String "_" "bn") = model_cfg "vgg19".
Proof.
  assert (H : PyStr.count "_" "vgg19" = O) by reflexivity.
  split; [exact H|].
  exact (proj1 model_cfg_lookup "vgg19" "bn" H).
Defined.

(** ** An [mlp_ratio] that is not an ordinary number *)

(** X14: the edge values of [mlp_ratio].  With a NaN the head adapter's
    constructor raises [ValueError] from [int]; with an infinity it raises
    [OverflowError], or [ValueError] when [out_features] converts to 0.0.
    With a zero the hidden width is 0; the adapter is then built when no
    other width is negative and the dropout rate is a probability, and its
    forward pass raises on every input.  In [VGG.__init__], with stride 32
    and no negative width, a NaN gives [ValueError] and an infinity
    [OverflowError], raised after the whole feature stack has been built. *)
Theorem mlp_ratio_edge_values :
  (forall in_f out_f k dr act fn,
      PyNum.float_of_int out_f = Ok fn ->
      PyNum.is_finite fn = true ->
      ConvMlp_init in_f out_f k S754_nan dr act = Raise ValueError
      /\ (forall s,
             ConvMlp_init in_f out_f k (S754_infinity s) dr act
             = Raise (match fn with
                      | S754_zero _ => ValueError
                      | _ => OverflowError
                      end))
      /\ (forall s,
             mid_features out_f (S754_zero s) = Ok 0
             /\ (0 <= in_f -> 0 <= out_f -> 0 <= k ->
                 Dropout_init dr = Ok dr ->
                 exists m,
                   ConvMlp_init in_f out_f k (S754_zero s) dr act = Ok m
                   /\ out_channels (fc1 m) = 0 /\ in_channels (fc2 m) = 0
                   /\ forall x, ConvMlp_forward m x = None)))
  /\ (forall act norm cfg nc in_chans pool dr,
         0 <= in_chans -> Forall width_nonneg cfg ->
         let built := layers (build_loop act norm cfg (build_start in_chans)) in
         VGG_init act norm cfg nc in_chans 32 S754_nan pool dr
         = Failed ValueError built
         /\ forall s,
              VGG_init act norm cfg nc in_chans 32 (S754_infinity s) pool dr
              = Failed OverflowError built).
Proof.
  split.
  - intros in_f out_f k dr act fn Hfn Hfin.
    assert (Hnan : mid_features out_f S754_nan = Raise ValueError).
    { unfold mid_features, PyNum.mul_int_float. rewrite Hfn.
      destruct fn; try discriminate Hfin; reflexivity. }
    assert (Hinf : forall s,
      mid_features out_f (S754_infinity s)
      = Raise (match fn with S754_zero _ => ValueError | _ => OverflowError end)).
    { intros s. unfold mid_features, PyNum.mul_int_float. rewrite Hfn.
      destruct fn; try discriminate Hfin; reflexivity. }
    assert (Hzero : forall s, mid_features out_f (S754_zero s) = Ok 0).
    { intros s. unfold mid_features, PyNum.mul_int_float. rewrite Hfn.
      destruct fn; try discriminate Hfin; reflexivity. }
    split; [|split].
    + unfold ConvMlp_init, bind. now rewrite Hnan.
    + intros s. unfold ConvMlp_init, bind. now rewrite Hinf.
    + intros s. split; [apply Hzero|].
      intros H1 H2 H3 Hd. eexists. split.
      * apply ConvMlp_init_ok with (mid := 0); try assumption; [apply Hzero | lia].
      * cbn [fc1 fc2 out_channels in_channels]. repeat split.
        intros x. unfold ConvMlp_forward. cbn [fc1].
        destruct (ConvMlp_pre_pool _ x); [|reflexivity].
        now rewrite conv2d_shape_empty.
  - intros act norm cfg nc in_chans pool dr Hc Hw. cbv zeta.
    unfold VGG_init. simpl (negb _). cbv iota.
    destruct (build_run_nonneg act norm cfg (build_start in_chans) Hc Hw)
      as [-> _].
    split; [reflexivity|]. intros s. reflexivity.
Qed.

Lemma mlp_ratio_edge_values_witness :
  PyNum.float_of_int 4096 = Ok (PyNum.dyadic 4096 0)
  /\ PyNum.is_finite (PyNum.dyadic 4096 0) = true
  /\ ConvMlp_init 512 4096 7 S754_nan (S754_zero false) "ReLU" = Raise ValueError
  /\ Forall width_nonneg [Ch 64; M]
  /\ VGG_init "ReLU" None [Ch 64; M] 1000 3 32 S754_nan "avg" (S754_zero false)
     = Failed ValueError
         (layers (build_loop "ReLU" None [Ch 64; M] (build_start 3))).
Proof.
  assert (H1 : PyNum.float_of_int 4096 = Ok (PyNum.dyadic 4096 0)) by reflexivity.
  assert (H2 : PyNum.is_finite (PyNum.dyadic 4096 0) = true) by reflexivity.
  assert (Hw : Forall width_nonneg [Ch 64; M])
    by (repeat constructor; simpl; lia).
  split; [exact H1|]. split; [exact H2|]. split.
  - exact (proj1 (proj1 mlp_ratio_edge_values 512 4096 7 (S754_zero false) "ReLU"
                    (PyNum.dyadic 4096 0) H1 H2)).
  - split; [exact Hw|].
    refine (proj1 (proj2 mlp_ratio_edge_values "ReLU" None [Ch 64; M] 1000 3
                     "avg" (S754_zero false) _ Hw)). lia.
Defined.

Lemma filter_fn_returns_iff_witness :
  exists out, _filter_fn legacy_checkpoint = Some out.
Proof.
  exact (proj2 (filter_fn_returns_iff legacy_checkpoint)
           legacy_checkpoint_reshape_ok).
Defined.

(** ** The default feature indices *)

(** X15: for vgg11, vgg13, vgg16 and vgg19, with or without normalization,
    the default [out_indices] of [_create_vgg] are exactly the positions of
    [feature_info]: there are as many entries as indices, and the entry at
    index [i] has reduction [2^i], from 1 at index 0 to 32 at index 5. *)
Theorem default_out_indices_valid :
  forall act norm name cfg nc in_chans os ratio pool dr m,
    In (name, cfg) cfgs ->
    VGG_init act norm cfg nc in_chans os ratio pool dr = Built m ->
    List.length (feature_info m) = List.length default_out_indices
    /\ forall i, In i default_out_indices ->
         exists fi, nth_error (feature_info m) i = Some fi
                    /\ reduction fi = 2 ^ Z.of_nat i.
Proof.
  intros act norm name cfg nc in_chans os ratio pool dr m Hin Hb.
  apply VGG_init_built in Hb. destruct Hb as (_ & _ & Hfi & _).
  cbv zeta in Hfi.
  assert (Hm : map reduction (feature_info m) = [1; 2; 4; 8; 16; 32]).
  { rewrite Hfi. simpl in Hin.
    destruct Hin as [H|[H|[H|[H|[]]]]]; injection H as <- <-;
      destruct norm; vm_compute; reflexivity. }
  split.
  - apply (f_equal (@List.length Z)) in Hm. now rewrite length_map in Hm.
  - intros i Hi.
    pose proof (nth_error_map reduction i (feature_info m)) as Hn.
    rewrite Hm in Hn.
    destruct (nth_error (feature_info m) i) as [fi|] eqn:E.
    + exists fi. split; [reflexivity|].
      simpl in Hi.
      destruct Hi as [<-|[<-|[<-|[<-|[<-|[<-|[]]]]]]];
        simpl in Hn; injection Hn as <-; reflexivity.
    + simpl in Hi.
      destruct Hi as [<-|[<-|[<-|[<-|[<-|[<-|[]]]]]]]; discriminate Hn.
Qed.

Lemma default_out_indices_valid_witness :
  exists m,
    VGG_init "ReLU" None
      [Ch 64; M; Ch 128; M; Ch 256; Ch 256; M; Ch 512; Ch 512; M;
       Ch 512; Ch 512; M]
      1000 3 32 (PyNum.dyadic 1 0) "avg" (S754_zero false) = Built m
    /\ List.length (feature_info m) = List.length default_out_indices.
Proof.
  assert (Hb : exists m,
    VGG_init "ReLU" None
      [Ch 64; M; Ch 128; M; Ch 256; Ch 256; M; Ch 512; Ch 512; M;
       Ch 512; Ch 512; M]
      1000 3 32 (PyNum.dyadic 1 0) "avg" (S754_zero false) = Built m)
    by (eexists; vm_compute; reflexivity).
  destruct Hb as [m Hb]. exists m. split; [exact Hb|].
  assert (Hin : In ("vgg11",
                    [Ch 64; M; Ch 128; M; Ch 256; Ch 256; M; Ch 512; Ch 512; M;
                     Ch 512; Ch 512; M]) cfgs) by (simpl; tauto).
  exact (proj1 (default_out_indices_valid "ReLU" None _ _ 1000 3 32
                  (PyNum.dyadic 1 0) "avg" (S754_zero false) m Hin Hb)).
Defined.
